(** * whatsapp-bot: the relay between a WhatsApp session and an HTTP service

    A shallow embedding of the three pieces of the bot that carry its logic:

    - the filter engine, [shouldForwardMessage];
    - the delivery pipeline, [forwardMessageToAPI], in its two versions (the
      server script with the HTTP gateway, module [Bot], and [example.js],
      module [Example]);
    - the control-plane gateway, the [http.createServer] request handler.

    JavaScript values that reach the code from outside (the parsed request
    body, the metadata object of a message) are kept untyped, as the code
    sees them: a [json] value, an object being an association list.  Numbers
    are binary64 floats, as in JavaScript.  What the runtime or a library
    supplies ([JSON.parse], [String.prototype.toLowerCase], [url.parse],
    [fetch], [client.sendMessage], the clock) is a variable of the section
    that uses it. *)

From Stdlib Require Import String Ascii List Bool ZArith Lia PrimFloat.

Set Warnings "-register-all".
Import ListNotations.

Local Open Scope list_scope.
Local Open Scope string_scope.

(** ** JavaScript strings *)

Module JsString.

(** [s.startsWith(p)]. *)
Fixpoint startsWith (s p : string) : bool :=
  match p, s with
  | EmptyString, _ => true
  | String _ _, EmptyString => false
  | String b p', String a s' => Ascii.eqb a b && startsWith s' p'
  end.

(** [s.includes(t)]: [t] occurs in [s] at some position. *)
Fixpoint includes (s t : string) : bool :=
  startsWith s t ||
  match s with
  | EmptyString => false
  | String _ s' => includes s' t
  end.

(** [s.endsWith(t)]. *)
Fixpoint endsWith (s t : string) : bool :=
  String.eqb s t ||
  match s with
  | EmptyString => false
  | String _ s' => endsWith s' t
  end.

(** [s.slice(-n)]: the last [n] characters of [s] (all of it when [s] is
    shorter). *)
Fixpoint slice_last (n : nat) (s : string) : string :=
  match s with
  | EmptyString => EmptyString
  | String a s' => if Nat.leb (String.length s) n then s else slice_last n s'
  end.

(** [s.toLowerCase()] for a string of ASCII characters: the letters [A] to
    [Z] are mapped to [a] to [z], every other character is kept. *)
Definition lower (a : ascii) : ascii :=
  let n := nat_of_ascii a in
  if Nat.leb 65 n && Nat.leb n 90 then ascii_of_nat (n + 32) else a.

Fixpoint toLowerCase (s : string) : string :=
  match s with
  | EmptyString => EmptyString
  | String a s' => String (lower a) (toLowerCase s')
  end.

(** What [includes] decides: [t] is a contiguous part of [s]. *)
Definition substring_of (t s : string) : Prop :=
  exists pre post, s = pre ++ t ++ post.

End JsString.

(** ** JavaScript values *)

(** The values [JSON.parse] produces, which are also the values the bot puts
    into the objects it serialises.  An object lists its properties in
    insertion order, each key once. *)
Inductive json : Type :=
| JNull
| JBool (b : bool)
| JNumber (x : float)
| JString (s : string)
| JArray (items : list json)
| JObject (props : list (string * json)).

(** An object whose values are of type [V]; [object] is the general case. *)
Definition dict (V : Type) : Type := list (string * V).

Definition object : Type := dict json.

(** A property read; [None] stands for [undefined]. *)
Fixpoint get {V : Type} (o : dict V) (k : string) : option V :=
  match o with
  | [] => None
  | (k', v) :: o' => if String.eqb k' k then Some v else get o' k
  end.

(** [o[k] = v]: an existing key keeps its place and takes the new value, a new
    key is added at the end. *)
Fixpoint set {V : Type} (o : dict V) (k : string) (v : V) : dict V :=
  match o with
  | [] => [(k, v)]
  | (k', v') :: o' =>
      if String.eqb k' k then (k', v) :: o' else (k', v') :: set o' k v
  end.

(** [{...o, ...extra}]: the properties of [extra] are written over those of
    [o], in order. *)
Definition spread {V : Type} (o extra : dict V) : dict V :=
  fold_left (fun acc kv => set acc (fst kv) (snd kv)) extra o.

(** ToBoolean on a number: [0], [-0] and [NaN] are falsy. *)
Definition number_truthy (x : float) : bool :=
  negb (PrimFloat.eqb x 0%float || negb (PrimFloat.eqb x x)).

(** ToBoolean; the argument is the result of a property read. *)
Definition truthy (v : option json) : bool :=
  match v with
  | None => false
  | Some JNull => false
  | Some (JBool b) => b
  | Some (JNumber x) => number_truthy x
  | Some (JString s) => negb (String.eqb s "")
  | Some (JArray _) => true
  | Some (JObject _) => true
  end.

(** [v === 'lit']: strict equality with a string literal. *)
Definition is_string (v : option json) (lit : string) : bool :=
  match v with
  | Some (JString s) => String.eqb s lit
  | _ => false
  end.

(** A thrown value or the reason of a rejected promise: an [Error] with its
    [name] and [message]. *)
Record Error : Type := {
  err_name : string;
  err_message : string
}.

(** How an awaited call ends. *)
Inductive outcome (A : Type) : Type :=
| Resolves (a : A)
| Rejects (e : Error).

Arguments Resolves {A} a.
Arguments Rejects {A} e.

(** ** Configuration ([api-config.js], read through [apiConfig]) *)

Record Filters : Type := {
  skipOwnMessages : bool;
  skipGroupMessages : bool;
  allowedSenders : list string;
  requiredKeywords : list string
}.

Record ApiConfig : Type := {
  enabled : bool;
  endpoint : string;
  apiKey : string;
  headers : dict string;
  timeout : Z;
  retryAttempts : Z;
  retryDelay : Z;
  filters : Filters;
  logSuccess : bool;
  logErrors : bool;
  debug : bool
}.

(** The same configuration with other values of the three logging flags. *)
Definition with_flags (c : ApiConfig) (success errors dbg : bool) : ApiConfig :=
  {| enabled := enabled c;
     endpoint := endpoint c;
     apiKey := apiKey c;
     headers := headers c;
     timeout := timeout c;
     retryAttempts := retryAttempts c;
     retryDelay := retryDelay c;
     filters := filters c;
     logSuccess := success;
     logErrors := errors;
     debug := dbg |}.

(** ** The filter engine *)

Section FilterEngine.

(** [String.prototype.toLowerCase]. *)
Variable toLowerCase : string -> string.

Variable apiConfig : ApiConfig.

(** [array.includes(x)] on an array of strings. *)
Definition array_includes (l : list string) (x : string) : bool :=
  existsb (fun y => String.eqb y x) l.

(** The arrow function given to [requiredKeywords.some]. *)
Definition keyword_matches (message keyword : string) : bool :=
  JsString.includes (toLowerCase message) (toLowerCase keyword).

Definition shouldForwardMessage
    (sender message : string) (additionalData : object) : bool :=
  let f := filters apiConfig in
  if negb (enabled apiConfig) then false
  else if skipOwnMessages f && truthy (get additionalData "isFromMe") then false
  else if skipGroupMessages f && is_string (get additionalData "chatType") "group"
    then false
  else if Nat.ltb 0 (List.length (allowedSenders f))
          && negb (array_includes (allowedSenders f) sender) then false
  else if Nat.ltb 0 (List.length (requiredKeywords f)) then
    let hasKeyword := existsb (keyword_matches message) (requiredKeywords f) in
    if negb hasKeyword then false else true
  else true.

(** The five rules of the filter as the specification words them, in the
    order in which it lists them. *)
Inductive rule : Type :=
| RelayEnabled
| OwnMessage
| GroupMessage
| AllowedSender
| RequiredKeyword.

Definition rule_index (r : rule) : nat :=
  match r with
  | RelayEnabled => 1
  | OwnMessage => 2
  | GroupMessage => 3
  | AllowedSender => 4
  | RequiredKeyword => 5
  end.

Definition passes (r : rule) (sender message : string) (additionalData : object)
  : Prop :=
  let f := filters apiConfig in
  match r with
  | RelayEnabled => enabled apiConfig = true
  | OwnMessage =>
      ~ (skipOwnMessages f = true
         /\ truthy (get additionalData "isFromMe") = true)
  | GroupMessage =>
      ~ (skipGroupMessages f = true
         /\ get additionalData "chatType" = Some (JString "group"))
  | AllowedSender =>
      allowedSenders f = [] \/ In sender (allowedSenders f)
  | RequiredKeyword =>
      requiredKeywords f = [] \/
      exists keyword, In keyword (requiredKeywords f) /\
        JsString.substring_of (toLowerCase keyword) (toLowerCase message)
  end.

(** Each rule, as the boolean the function computes for it. *)
Definition passesb (r : rule) (sender message : string) (additionalData : object)
  : bool :=
  let f := filters apiConfig in
  match r with
  | RelayEnabled => enabled apiConfig
  | OwnMessage =>
      negb (skipOwnMessages f && truthy (get additionalData "isFromMe"))
  | GroupMessage =>
      negb (skipGroupMessages f
            && is_string (get additionalData "chatType") "group")
  | AllowedSender =>
      negb (Nat.ltb 0 (List.length (allowedSenders f))
            && negb (array_includes (allowedSenders f) sender))
  | RequiredKeyword =>
      negb (Nat.ltb 0 (List.length (requiredKeywords f))
            && negb (existsb (keyword_matches message)
                       (requiredKeywords f)))
  end.

End FilterEngine.

(** ** The delivery pipeline *)

(** What the pipeline does to the outside world, in order.  A console line is
    kept as its fixed text (pictographs left out) and the values printed with
    it. *)
Inductive arg : Type :=
| AString (s : string)
| AInt (z : Z)
| AObject (o : object)
| AHeaders (h : dict string)
| AError (e : Error).

(** The second argument of [fetch]. *)
Record RequestInit : Type := {
  init_method : string;
  init_headers : dict string;
  init_body : object;
  init_timeout : Z
}.

Inductive event : Type :=
| console_log (text : string) (args : list arg)
| console_error (text : string) (args : list arg)
| fetch_call (url : string) (init : RequestInit)
| setTimeout (ms : Z).

(** The response object a resolved [fetch] yields; [text] is what awaiting
    [response.text()] gives, the body or the error of a body that could not
    be read. *)
Record Response : Type := {
  status : Z;
  statusText : string;
  response_headers : dict string;
  text : outcome string
}.

(** [response.ok]. *)
Definition ok (r : Response) : bool :=
  (200 <=? status r)%Z && (status r <=? 299)%Z.

(** How one turn of the retry loop ends: with a [return], or by falling
    through to the next turn. *)
Inductive step : Type :=
| Return (b : bool)
| Next.

(** The events that are no console output: the HTTP calls and the waits. *)
Definition is_console (e : event) : bool :=
  match e with
  | console_log _ _ | console_error _ _ => true
  | _ => false
  end.

Definition observable (trace : list event) : list event :=
  filter (fun e => negb (is_console e)) trace.

Definition is_fetch (e : event) : bool :=
  match e with
  | fetch_call _ _ => true
  | _ => false
  end.

(** The number of HTTP attempts in a trace. *)
Definition attempts_made (trace : list event) : nat :=
  List.length (filter is_fetch trace).

(** The waits of a trace, in order. *)
Fixpoint delays (trace : list event) : list Z :=
  match trace with
  | [] => []
  | setTimeout ms :: trace' => ms :: delays trace'
  | _ :: trace' => delays trace'
  end.

(** The bodies posted, in order. *)
Fixpoint posted (trace : list event) : list object :=
  match trace with
  | [] => []
  | fetch_call _ init :: trace' => init_body init :: posted trace'
  | _ :: trace' => posted trace'
  end.

(** The object literal [{sender, message, timestamp: new
    Date().toISOString(), ...additionalData}], [iso] being the ISO-8601 string
    of the clock. *)
Definition payload_of (sender message iso : string) (additionalData : object)
  : object :=
  spread [("sender", JString sender);
          ("message", JString message);
          ("timestamp", JString iso)]
         additionalData.

(** The options given to [fetch]: the configured headers with the
    [Authorization] entry written over them. *)
Definition request_of (apiConfig : ApiConfig) (payload : object) : RequestInit :=
  {| init_method := "POST";
     init_headers :=
       set (headers apiConfig) "Authorization" ("Bearer " ++ apiKey apiConfig);
     init_body := payload;
     init_timeout := timeout apiConfig |}.

Definition when (b : bool) (evs : list event) : list event :=
  if b then evs else [].

(** The [for] loop shared by the two versions: [turn attempt] is the body of
    the loop.  The loop is run on fuel; [None] is fuel that ran out. *)
Fixpoint retry_loop (retryAttempts : Z) (turn : Z -> list event * step)
    (fuel : nat) (attempt : Z) : option (list event * bool) :=
  if (attempt <=? retryAttempts)%Z then
    match fuel with
    | O => None
    | S fuel' =>
        match turn attempt with
        | (evs, Return b) => Some (evs, b)
        | (evs, Next) =>
            match retry_loop retryAttempts turn fuel' (attempt + 1)%Z with
            | Some (evs', b) => Some ((evs ++ evs')%list, b)
            | None => None
            end
        end
    end
  else Some ([], false).

(** An attempt that fails: the call is rejected (a transport error), or the
    response has a status outside 2xx. *)
Definition failed_attempt (o : outcome Response) : bool :=
  match o with
  | Rejects _ => true
  | Resolves r => negb (ok r)
  end.

(** [n] consecutive attempt numbers from [a] on. *)
Fixpoint zrange (a : Z) (n : nat) : list Z :=
  match n with
  | O => []
  | S n' => a :: zrange (a + 1)%Z n'
  end.

(** The calls of a run with [wait] between every two of them, and none after
    the last. *)
Fixpoint alternate (calls : list event) (wait : event) : list event :=
  match calls with
  | [] => []
  | [c] => [c]
  | c :: rest => c :: wait :: alternate rest wait
  end.

(** What a run shows when the console is not looked at. *)
Definition observe (run : option (list event * bool))
  : option (list event * bool) :=
  match run with
  | Some (trace, b) => Some (observable trace, b)
  | None => None
  end.

(** The [fetch] call of the given attempt: the same in both scripts. *)
Definition call_of (apiConfig : ApiConfig) (now : Z -> string)
    (sender message : string) (additionalData : object) (attempt : Z) : event :=
  fetch_call (endpoint apiConfig)
    (request_of apiConfig
       (payload_of sender message (now attempt) additionalData)).

(** The result of a run, the number of its attempts and its waits. *)
Definition control_flow (run : option (list event * bool))
  : option (bool * nat * list Z) :=
  match run with
  | Some (trace, b) => Some (b, attempts_made trace, delays trace)
  | None => None
  end.

(** A run that ends after [k] attempts with the result [b]: it made the [k]
    calls, in order, waited [delay] between every two of them and at no other
    time, and did nothing else but write to the console. *)
Definition ends_after (k : nat) (b : bool) (delay : Z) (call : Z -> event)
    (run : option (list event * bool)) : Prop :=
  exists trace,
    run = Some (trace, b)
    /\ attempts_made trace = k
    /\ delays trace = repeat delay (k - 1)
    /\ observable trace = alternate (map call (zrange 1 k)) (setTimeout delay).

(** *** The server script *)

Module Bot.

Local Open Scope list_scope.

Section Delivery.

Variable apiConfig : ApiConfig.

(** [new Date().toISOString()] in the given attempt. *)
Variable now : Z -> string.

(** What the [fetch] call of the given attempt settles to. *)
Variable fetch : Z -> outcome Response.

Variables sender message : string.
Variable additionalData : object.

(** The end of both failure paths: stop on the last attempt, otherwise wait. *)
Definition retry_or_stop (attempt : Z) : list event * step :=
  if (attempt =? retryAttempts apiConfig)%Z then ([], Return false)
  else
    (when (debug apiConfig)
       [console_log "DEBUG: Waiting before retry (ms)"
          [AInt (retryDelay apiConfig)]]
     ++ [setTimeout (retryDelay apiConfig)],
     Next).

(** The [catch] block. *)
Definition catch_block (attempt : Z) (error : Error) : list event * step :=
  let said :=
    if debug apiConfig then
      [console_log "DEBUG: Network/connection error" [];
       console_log "Error Type:" [AString (err_name error)];
       console_log "Error Message:" [AString (err_message error)];
       console_log "Error Stack:" [AError error]]
    else if logErrors apiConfig then
      [console_error "Error forwarding message to API"
         [AInt attempt; AInt (retryAttempts apiConfig);
          AString (err_message error)]]
    else [] in
  let (evs, st) := retry_or_stop attempt in
  (said ++ evs, st).

(** One turn of the loop: the [try] block, with the [catch] block where a
    call in it throws. *)
Definition turn (attempt : Z) : list event * step :=
  let payload := payload_of sender message (now attempt) additionalData in
  let said :=
    when (debug apiConfig)
      [console_log "DEBUG: Forwarding message to API" [];
       console_log "Payload:" [AObject payload];
       console_log "Endpoint:" [AString (endpoint apiConfig)];
       console_log "API Key:"
         [AString (if String.eqb (apiKey apiConfig) "" then "None"
                   else ("***" ++ JsString.slice_last 4 (apiKey apiConfig))%string)];
       console_log "Timeout (ms):" [AInt (timeout apiConfig)];
       console_log "Attempt:" [AInt attempt; AInt (retryAttempts apiConfig)]] in
  let call := fetch_call (endpoint apiConfig) (request_of apiConfig payload) in
  match fetch attempt with
  | Rejects error =>
      let (evs, st) := catch_block attempt error in
      (said ++ call :: evs, st)
  | Resolves response =>
      if ok response then
        (said ++ call ::
           (if debug apiConfig then
              [console_log "DEBUG: API request successful" [];
               console_log "Status:"
                 [AInt (status response); AString (statusText response)];
               console_log "Headers:" [AHeaders (response_headers response)]]
            else if logSuccess apiConfig then
              [console_log "Message forwarded to API successfully. Status:"
                 [AInt (status response)]]
            else []),
         Return true)
      else
        match text response with
        | Rejects error =>
            let (evs, st) := catch_block attempt error in
            (said ++ call :: evs, st)
        | Resolves responseText =>
            let failed :=
              if debug apiConfig then
                [console_log "DEBUG: API request failed" [];
                 console_log "Status:"
                   [AInt (status response); AString (statusText response)];
                 console_log "Response Headers:"
                   [AHeaders (response_headers response)];
                 console_log "Response Body:" [AString responseText]]
              else if logErrors apiConfig then
                [console_error "API request failed. Status, Response:"
                   [AInt (status response); AString responseText]]
              else [] in
            let (evs, st) := retry_or_stop attempt in
            (said ++ call :: failed ++ evs, st)
        end
  end.

(** [forwardMessageToAPI(sender, message, additionalData)]: the events it
    causes and the boolean it resolves to. *)
Definition forwardMessageToAPI : option (list event * bool) :=
  retry_loop (retryAttempts apiConfig) turn
    (Z.to_nat (retryAttempts apiConfig)) 1%Z.

End Delivery.

End Bot.

(** *** [example.js] *)

Module Example.

Local Open Scope list_scope.

Section Delivery.

Variable apiConfig : ApiConfig.
Variable now : Z -> string.
Variable fetch : Z -> outcome Response.
Variables sender message : string.
Variable additionalData : object.

Definition retry_or_stop (attempt : Z) : list event * step :=
  if (attempt =? retryAttempts apiConfig)%Z then ([], Return false)
  else ([setTimeout (retryDelay apiConfig)], Next).

Definition catch_block (attempt : Z) (error : Error) : list event * step :=
  let said :=
    when (logErrors apiConfig)
      [console_error "Error forwarding message to API"
         [AInt attempt; AInt (retryAttempts apiConfig);
          AString (err_message error)];
       console_error "DEBUG: Full error:" [AError error]] in
  let (evs, st) := retry_or_stop attempt in
  (said ++ evs, st).

(** The body is read, for the log, before [response.ok] is looked at. *)
Definition turn (attempt : Z) : list event * step :=
  let payload := payload_of sender message (now attempt) additionalData in
  let said :=
    [console_log "DEBUG: Attempting API call"
       [AInt attempt; AInt (retryAttempts apiConfig)];
     console_log "DEBUG: Endpoint:" [AString (endpoint apiConfig)];
     console_log "DEBUG: Payload:" [AObject payload];
     console_log "DEBUG: Headers:"
       [AHeaders (init_headers (request_of apiConfig payload))]] in
  let call := fetch_call (endpoint apiConfig) (request_of apiConfig payload) in
  match fetch attempt with
  | Rejects error =>
      let (evs, st) := catch_block attempt error in
      (said ++ call :: evs, st)
  | Resolves response =>
      let got :=
        [console_log "DEBUG: Response status:" [AInt (status response)];
         console_log "DEBUG: Response headers:"
           [AHeaders (response_headers response)]] in
      match text response with
      | Rejects error =>
          let (evs, st) := catch_block attempt error in
          (said ++ call :: got ++ evs, st)
      | Resolves responseText =>
          let read :=
            [console_log "DEBUG: Response body:" [AString responseText]] in
          if ok response then
            (said ++ call :: got ++ read ++
               when (logSuccess apiConfig)
                 [console_log "Message forwarded to API successfully. Status:"
                    [AInt (status response)]],
             Return true)
          else
            let failed :=
              when (logErrors apiConfig)
                [console_error "API request failed. Status, Response:"
                   [AInt (status response); AString responseText]] in
            let (evs, st) := retry_or_stop attempt in
            (said ++ call :: got ++ read ++ failed ++ evs, st)
      end
  end.

Definition forwardMessageToAPI : option (list event * bool) :=
  retry_loop (retryAttempts apiConfig) turn
    (Z.to_nat (retryAttempts apiConfig)) 1%Z.

End Delivery.

End Example.

(** *** The metadata of an inbound message *)

(** The fields of the message and of its chat that the [message] handler
    reads. *)
Record Message : Type := {
  msg_id_serialized : string;
  msg_from : string;
  msg_body : string;
  msg_type : string;
  msg_hasMedia : bool;
  msg_timestamp : float;
  msg_fromMe : bool
}.

Record Chat : Type := {
  chat_isGroup : bool;
  chat_name : string
}.

(** The [additionalData] object the handler builds; it is the same in both
    scripts.  [msg.timestamp] is the time of the message in seconds since the
    epoch. *)
Definition additionalData_of (msg : Message) (chat : Chat) : object :=
  [("messageId", JString (msg_id_serialized msg));
   ("chatType", JString (if chat_isGroup chat then "group" else "private"));
   ("chatName",
    JString (if String.eqb (chat_name chat) "" then "Unknown" else chat_name chat));
   ("messageType", JString (msg_type msg));
   ("hasMedia", JBool (msg_hasMedia msg));
   ("timestamp", JNumber (msg_timestamp msg));
   ("isFromMe", JBool (msg_fromMe msg))].

(** The [timestamp] a posted body carries, and the fields of the message in
    it. *)
Definition carries_message_time (msg : Message) (chat : Chat) (body : object)
  : Prop :=
  get body "timestamp" = Some (JNumber (msg_timestamp msg))
  /\ get body "sender" = Some (JString (msg_from msg))
  /\ get body "message" = Some (JString (msg_body msg))
  /\ get body "messageId" = Some (JString (msg_id_serialized msg))
  /\ get body "chatType"
     = Some (JString (if chat_isGroup chat then "group" else "private"))
  /\ get body "chatName"
     = Some (JString (if String.eqb (chat_name chat) "" then "Unknown"
                      else chat_name chat))
  /\ get body "messageType" = Some (JString (msg_type msg))
  /\ get body "hasMedia" = Some (JBool (msg_hasMedia msg))
  /\ get body "isFromMe" = Some (JBool (msg_fromMe msg)).

(** ** The control-plane gateway *)

(** What the handler reads of a request: the method, the [authorization]
    header ([None] when the request has none), the URL, and the body, that is
    the chunks of the [data] events put together. *)
Record IncomingMessage : Type := {
  req_method : string;
  req_authorization : option string;
  req_url : string;
  req_body : string
}.

(** What the handler writes: the status of [writeHead], the headers of
    [setHeader] and [writeHead], and the object given, serialised, to [end]
    ([None] for an [end] with no data). *)
Record ServerResponse : Type := {
  statusCode : Z;
  res_headers : dict string;
  res_body : option object
}.

(** A JavaScript value as the handler holds it: a parsed value, or
    [undefined] ([None]). *)
Definition value : Type := option json.

(** The second argument of [client.sendMessage]: the [message] of the request
    as it is, or a location made of a latitude, a longitude, a name and an
    address. *)
Inductive content : Type :=
| Text (message : value)
| Location (latitude longitude name address : value).

(** The message object [client.sendMessage] resolves to, as far as the
    handler reads it: [result.id._serialized] and [result.timestamp]. *)
Record Receipt : Type := {
  receipt_id_serialized : string;
  receipt_timestamp : float
}.

(** The result of handling one request: the response, the calls of
    [client.sendMessage] with their arguments, and the errors given to
    [console.error]. *)
Record Handled : Type := {
  response : ServerResponse;
  sent : list (value * content);
  logged : list Error
}.

(** The three headers set on every response. *)
Definition cors : dict string :=
  [("Access-Control-Allow-Origin", "*");
   ("Access-Control-Allow-Methods", "GET, POST, OPTIONS");
   ("Access-Control-Allow-Headers", "Content-Type, Authorization")].

(** [res.writeHead(code, {'Content-Type': 'application/json'});
    res.end(JSON.stringify(body))]. *)
Definition json_response (code : Z) (body : object) : ServerResponse :=
  {| statusCode := code;
     res_headers := set cors "Content-Type" "application/json";
     res_body := Some body |}.

(** A response with no call of the session and nothing logged. *)
Definition reply (code : Z) (body : object) : Handled :=
  {| response := json_response code body; sent := []; logged := [] |}.

(** The [TypeError] the runtime throws, with the message V8 gives it. *)
Definition TypeError (message : string) : Error :=
  {| err_name := "TypeError"; err_message := message |}.

(** A property read [data.k] on a parsed value other than [null]: only an
    object has the properties the handler reads. *)
Definition prop (data : json) (k : string) : option json :=
  match data with
  | JObject o => get o k
  | _ => None
  end.

(** [array.includes(lit)] on a parsed array, for a string literal. *)
Definition items_include (items : list json) (lit : string) : bool :=
  existsb (fun v => is_string (Some v) lit) items.

Module Gateway.

Section Handler.

(** [process.env.WHATSAPP_SEND_AUTH_TOKEN], or its default. *)
Variable HTTP_AUTH_TOKEN : string.

(** [JSON.parse]: the parsed value, or the [SyntaxError] thrown. *)
Variable JSON_parse : string -> outcome json.

(** [url.parse(u, true).pathname], which may be [null]. *)
Variable pathname : string -> option string.

(** [String(array)], as a template literal converts an array. *)
Variable array_toString : list json -> string.

(** [new Location(latitude, longitude, name, address)].  The class comes
    from the library ([./index]), which is not among the sources: the call
    yields the content to send, or throws. *)
Variable new_Location : value -> value -> value -> value -> outcome content.

(** [client.sendMessage]: the promise it returns resolves or rejects. *)
Variable sendMessage : value -> content -> outcome Receipt.

(** Whether [client.info] is set, and the clock of [/status]. *)
Variable client_info : bool.
Variable now : string.

(** The [catch] block of the [end] callback. *)
Definition failed (error : Error) (calls : list (value * content)) : Handled :=
  {| response :=
       json_response 500
         [("error", JString "Failed to send message");
          ("details", JString (err_message error))];
     sent := calls;
     logged := [error] |}.

(** "Format phone number".  A string or an array has an [includes] method;
    on any other value the call throws. *)
Definition phoneNumber_of (to : value) : outcome value :=
  match to with
  | Some (JString s) =>
      if negb (JsString.includes s "@c.us") && negb (JsString.includes s "@g.us")
      then Resolves (Some (JString (s ++ "@c.us")))
      else Resolves to
  | Some (JArray items) =>
      if negb (items_include items "@c.us") && negb (items_include items "@g.us")
      then Resolves (Some (JString (array_toString items ++ "@c.us")))
      else Resolves to
  | Some (JBool _) | Some (JNumber _) | Some (JObject _) =>
      Rejects (TypeError "phoneNumber.includes is not a function")
  | Some JNull =>
      Rejects (TypeError "Cannot read properties of null (reading 'includes')")
  | None =>
      Rejects
        (TypeError "Cannot read properties of undefined (reading 'includes')")
  end.

(** [result = await client.sendMessage(phoneNumber, c)] and the 200 response
    after the [switch]. *)
Definition send (phoneNumber : value) (c : content) : Handled :=
  match sendMessage phoneNumber c with
  | Resolves result =>
      {| response :=
           json_response 200
             [("success", JBool true);
              ("messageId", JString (receipt_id_serialized result));
              ("timestamp", JNumber (receipt_timestamp result))];
         sent := [(phoneNumber, c)];
         logged := [] |}
  | Rejects error => failed error [(phoneNumber, c)]
  end.

(** The [end] callback of [POST /send]. *)
Definition send_route (body : string) : Handled :=
  match JSON_parse body with
  | Rejects error => failed error []
  | Resolves JNull =>
      failed (TypeError "Cannot destructure property 'to' of 'data' as it is null.")
             []
  | Resolves data =>
      let to := prop data "to" in
      let message := prop data "message" in
      let type :=
        match prop data "type" with
        | None => Some (JString "text")
        | given => given
        end in
      if negb (truthy to) || negb (truthy message) then
        reply 400 [("error", JString "Missing required fields: to, message")]
      else
        match phoneNumber_of to with
        | Rejects error => failed error []
        | Resolves phoneNumber =>
            if is_string type "text" then send phoneNumber (Text message)
            else if is_string type "location" then
              let latitude := prop data "latitude" in
              let longitude := prop data "longitude" in
              let name := prop data "name" in
              let address := prop data "address" in
              if negb (truthy latitude) || negb (truthy longitude) then
                reply 400
                  [("error", JString "Location requires latitude and longitude")]
              else
                match new_Location latitude longitude name address with
                | Resolves location => send phoneNumber location
                | Rejects error => failed error []
                end
            else reply 400 [("error", JString "Unsupported message type")]
        end
  end.

(** [!authHeader || authHeader !== `Bearer ${HTTP_AUTH_TOKEN}`]. *)
Definition unauthorized (authHeader : option string) : bool :=
  match authHeader with
  | None => true
  | Some h =>
      String.eqb h "" || negb (String.eqb h ("Bearer " ++ HTTP_AUTH_TOKEN))
  end.

(** The request handler given to [http.createServer]. *)
Definition handler (req : IncomingMessage) : Handled :=
  if String.eqb (req_method req) "OPTIONS" then
    {| response := {| statusCode := 200; res_headers := cors; res_body := None |};
       sent := [];
       logged := [] |}
  else if unauthorized (req_authorization req) then
    reply 401 [("error", JString "Unauthorized")]
  else
    let path := pathname (req_url req) in
    if String.eqb (req_method req) "POST"
       && match path with Some p => String.eqb p "/send" | None => false end
    then send_route (req_body req)
    else if String.eqb (req_method req) "GET"
            && match path with Some p => String.eqb p "/status" | None => false end
    then
      reply 200
        [("status", JString "running");
         ("whatsapp", JString (if client_info then "connected" else "connecting"));
         ("timestamp", JString now)]
    else reply 404 [("error", JString "Not found")].

End Handler.

End Gateway.

(** ** Sample data *)

(** [api-config.js] is not among the sources; this is a configuration of the
    shape the scripts read. *)
Definition sample_config : ApiConfig :=
  {| enabled := true;
     endpoint := "https://api.example.com/webhook";
     apiKey := "secret-key";
     headers := [("Content-Type", "application/json")];
     timeout := 10000;
     retryAttempts := 3;
     retryDelay := 1000;
     filters :=
       {| skipOwnMessages := true;
          skipGroupMessages := false;
          allowedSenders := ["15551234567@c.us"; "15557654321@c.us"];
          requiredKeywords := ["Urgent"; "help"] |};
     logSuccess := true;
     logErrors := true;
     debug := false |}.

Definition sample_msg : Message :=
  {| msg_id_serialized := "false_15551234567@c.us_3EB0";
     msg_from := "15551234567@c.us";
     msg_body := "Please HELP me";
     msg_type := "chat";
     msg_hasMedia := false;
     msg_timestamp := 1694456538%float;
     msg_fromMe := false |}.

Definition sample_chat : Chat :=
  {| chat_isGroup := false; chat_name := "" |}.

Definition sample_clock (attempt : Z) : string := "2023-09-11T18:22:18.000Z".

(** An endpoint that refuses every connection. *)
Definition refusing (attempt : Z) : outcome Response :=
  Rejects {| err_name := "FetchError"; err_message := "connect ECONNREFUSED" |}.

(** An endpoint that answers 503 twice and then 200. *)
Definition recovering (attempt : Z) : outcome Response :=
  if (attempt <? 3)%Z then
    Resolves {| status := 503; statusText := "Service Unavailable";
                response_headers := []; text := Resolves "busy" |}
  else
    Resolves {| status := 200; statusText := "OK";
                response_headers := []; text := Resolves "{}" |}.

(** An endpoint that answers 200 at once, over a connection that breaks
    before the body has arrived, and refuses every later connection. *)
Definition cut_short (attempt : Z) : outcome Response :=
  if (attempt =? 1)%Z then
    Resolves {| status := 200; statusText := "OK"; response_headers := [];
                text := Rejects {| err_name := "FetchError";
                                   err_message := "Premature close" |} |}
  else refusing attempt.

(** The bodies a run posted. *)
Definition posted_by (run : option (list event * bool)) : list object :=
  match run with
  | Some (trace, _) => posted trace
  | None => []
  end.

(** *** Sample requests *)

(** JSON text is written here with ['] for the double quote. *)
Fixpoint json_text (s : string) : string :=
  match s with
  | EmptyString => EmptyString
  | String a s' =>
      String (if Ascii.eqb a "'"%char then "034"%char else a) (json_text s')
  end.

(** [JSON.parse] on the bodies of the sample requests: each text is listed
    with the value it parses to.  [{not json] is no JSON text, nor is any
    other text this table is asked for. *)
Definition sample_bodies : list (string * json) :=
  [(json_text "{'to':'15551234567','message':'hello'}",
    JObject [("to", JString "15551234567"); ("message", JString "hello")]);
   (json_text "{'to':'abc@g.us','message':'hello'}",
    JObject [("to", JString "abc@g.us"); ("message", JString "hello")]);
   (json_text "{'to':'john@c.usa.com','message':'hello'}",
    JObject [("to", JString "john@c.usa.com"); ("message", JString "hello")]);
   (json_text "{'to':'15551234567','message':''}",
    JObject [("to", JString "15551234567"); ("message", JString "")]);
   (json_text "{'to':'15551234567','type':'location'}",
    JObject [("to", JString "15551234567"); ("type", JString "location")]);
   (json_text "{'to':'15551234567','message':'here','type':'location','longitude':5}",
    JObject [("to", JString "15551234567"); ("message", JString "here");
             ("type", JString "location"); ("longitude", JNumber 5%float)]);
   (json_text "{'to':'15551234567','message':'here','type':'location','latitude':0,'longitude':5}",
    JObject [("to", JString "15551234567"); ("message", JString "here");
             ("type", JString "location"); ("latitude", JNumber 0%float);
             ("longitude", JNumber 5%float)]);
   (json_text "{'to':'','message':'here','type':'location','latitude':0,'longitude':5}",
    JObject [("to", JString ""); ("message", JString "here");
             ("type", JString "location"); ("latitude", JNumber 0%float);
             ("longitude", JNumber 5%float)])].

Definition sample_parse (body : string) : outcome json :=
  match get sample_bodies body with
  | Some data => Resolves data
  | None =>
      Rejects {| err_name := "SyntaxError";
                 err_message := "Unexpected token in JSON" |}
  end.

(** [url.parse(u, true).pathname] for a request target in origin form: the
    part before the query or the fragment. *)
Fixpoint before_query (u : string) : string :=
  match u with
  | EmptyString => EmptyString
  | String a u' =>
      if Ascii.eqb a "?"%char || Ascii.eqb a "#"%char then EmptyString
      else String a (before_query u')
  end.

Definition sample_pathname (u : string) : option string := Some (before_query u).

(** [String(array)] for an array of strings: the items, with commas between. *)
Fixpoint sample_array_toString (items : list json) : string :=
  match items with
  | [] => ""
  | [JString s] => s
  | JString s :: rest => s ++ "," ++ sample_array_toString rest
  | _ :: rest => sample_array_toString rest
  end.

(** A [Location] class that keeps its four arguments. *)
Definition sample_Location (latitude longitude name address : value)
  : outcome content :=
  Resolves (Location latitude longitude name address).

(** A session that sends every message. *)
Definition sample_session (recipient : value) (c : content) : outcome Receipt :=
  Resolves {| receipt_id_serialized := "true_15551234567@c.us_3EB0A1";
              receipt_timestamp := 1694456600%float |}.

Definition sample_handler : IncomingMessage -> Handled :=
  Gateway.handler "s3cret" sample_parse sample_pathname sample_array_toString
    sample_Location sample_session true "2023-09-11T18:23:20.000Z".

(** [POST /send] with the right token and the given body. *)
Definition post_send (body : string) : IncomingMessage :=
  {| req_method := "POST";
     req_authorization := Some "Bearer s3cret";
     req_url := "/send";
     req_body := body |}.

(** ** The rest of the scripts *)

(** *** The connection test *)

(** The object literal [testPayload] of [testAPIConnection]. *)
Definition testPayload (iso : string) : object :=
  [("sender", JString "test@c.us");
   ("message", JString "This is a test message from WhatsApp bot");
   ("timestamp", JString iso);
   ("test", JBool true)].

(** [testAPIConnection()], the same in both scripts: [iso] is the clock at
    the call, [answer] what the [fetch] call settles to.  The function
    catches what its [try] block throws, and returns nothing. *)
Definition testAPIConnection (apiConfig : ApiConfig) (iso : string)
    (answer : outcome Response) : list event :=
  (console_log "Testing API connection..." []
   :: fetch_call (endpoint apiConfig) (request_of apiConfig (testPayload iso))
   :: match answer with
      | Rejects error =>
          [console_error "API connection test error:"
             [AString (err_message error)]]
      | Resolves response =>
          console_log "Test API Response Status:" [AInt (status response)]
          :: match text response with
             | Rejects error =>
                 [console_error "API connection test error:"
                    [AString (err_message error)]]
             | Resolves responseText =>
                 [console_log "Test API Response Body:" [AString responseText];
                  if ok response
                  then console_log "API connection test successful!" []
                  else console_log "API connection test failed!" []]
             end
      end)%list.

(** The calls of [fetch] in a trace, each with its URL and its options. *)
Fixpoint requests (trace : list event) : list (string * RequestInit) :=
  match trace with
  | [] => []
  | fetch_call url init :: trace' => (url, init) :: requests trace'
  | _ :: trace' => requests trace'
  end.

(** A request as the scripts make it: a [POST] to the configured endpoint,
    with the configured timeout, the [Authorization] header made of the API
    key, and every other configured header as it is. *)
Definition well_formed_request (apiConfig : ApiConfig)
    (request : string * RequestInit) : Prop :=
  fst request = endpoint apiConfig
  /\ init_method (snd request) = "POST"
  /\ init_timeout (snd request) = timeout apiConfig
  /\ get (init_headers (snd request)) "Authorization"
     = Some ("Bearer " ++ apiKey apiConfig)
  /\ forall k, k <> "Authorization" ->
       get (init_headers (snd request)) k = get (headers apiConfig) k.

(** An attempt the server script takes for a success: the call resolves with
    a 2xx status. *)
Definition accepted (o : outcome Response) : bool := negb (failed_attempt o).

(** An attempt [example.js] takes for a success: the call resolves with a
    2xx status and the body can be read. *)
Definition accepted_and_read (o : outcome Response) : bool :=
  match o with
  | Resolves r =>
      ok r && match text r with Resolves _ => true | Rejects _ => false end
  | Rejects _ => false
  end.

(** The events of a run. *)
Definition events_of (run : option (list event * bool)) : list event :=
  match run with
  | Some (trace, _) => trace
  | None => []
  end.

(** A run that stops at attempt [k] with the result [b], [good] telling the
    attempts that are taken for a success: no attempt before [k] was, a
    result [true] means that attempt [k] was, and a result [false] that [k]
    is the last attempt allowed. *)
Definition stops_at (good : Z -> bool) (retryAttempts k : Z) (b : bool) : Prop :=
  (forall j, (1 <= j < k)%Z -> good j = false)
  /\ (b = true <-> good k = true)
  /\ (b = false -> k = retryAttempts).

(** *** The [message] handler of the server script *)

(** How an [async] handler ends. *)
Inductive settled : Type :=
| Fulfilled
| Rejected (e : Error).

(** [new Date(ms)] holds a time when [ms] is finite and at most 8.64e15 in
    absolute value; [toISOString] throws a [RangeError] on any other date. *)
Definition valid_time (ms : float) : bool :=
  PrimFloat.leb (PrimFloat.abs ms) 8640000000000000%float.

Definition RangeError (message : string) : Error :=
  {| err_name := "RangeError"; err_message := message |}.

Module Handlers.

Local Open Scope list_scope.

Section Message.

Variable toLowerCase : string -> string.
Variable apiConfig : ApiConfig.
Variable now : Z -> string.
Variable fetch : Z -> outcome Response.

(** [Date.prototype.toISOString] on a date that holds the time [ms]. *)
Variable toISOString : float -> string.

(** [client.on('message', ...)]: [chat] is what [msg.getChat()] settles to.
    Of the fields the debug lines print, those of [Message] are kept. *)
Definition onMessage (msg : Message) (chat : outcome Chat)
  : option (list event * settled) :=
  let ms := PrimFloat.mul (msg_timestamp msg) 1000%float in
  if debug apiConfig && negb (valid_time ms) then
    Some ([console_log "MESSAGE RECEIVED" []],
          Rejected (RangeError "Invalid time value"))
  else
    let said :=
      when (debug apiConfig)
        [console_log "MESSAGE RECEIVED" [];
         console_log "Basic Info:"
           [AObject [("type", JString (msg_type msg));
                     ("from", JString (msg_from msg));
                     ("body", JString (msg_body msg));
                     ("timestamp", JString (toISOString ms));
                     ("messageId", JString (msg_id_serialized msg))]];
         console_log "Full Message Details:"
           [AObject [("hasMedia", JBool (msg_hasMedia msg));
                     ("isFromMe", JBool (msg_fromMe msg))]]] in
    let sender := msg_from msg in
    let message := msg_body msg in
    match chat with
    | Rejects error => Some (said, Rejected error)
    | Resolves chat' =>
        let additionalData := additionalData_of msg chat' in
        if shouldForwardMessage toLowerCase apiConfig sender message additionalData
        then
          match
            Bot.forwardMessageToAPI apiConfig now fetch sender message
              additionalData
          with
          | Some (trace, _) =>
              Some (said
                    ++ when (debug apiConfig)
                         [console_log "Forwarding message from"
                            [AString sender; AString message];
                          console_log "Additional Data:" [AObject additionalData]]
                    ++ trace,
                    Fulfilled)
          | None => None
          end
        else
          Some (said
                ++ when (debug apiConfig)
                     [console_log "Skipping message (filtered out) from"
                        [AString sender]],
                Fulfilled)
    end.

End Message.

(** *** The [qr] handler of the server script *)

(** The two flags the handler keeps between events. *)
Record QrState : Type := {
  qrCodeShown : bool;
  pairingCodeRequested : bool
}.

Definition qr_initial : QrState :=
  {| qrCodeShown := false; pairingCodeRequested := false |}.

(** What the handler does: a console line, with the code when the line
    prints it, or a call of [client.requestPairingCode]. *)
Inductive qr_event : Type :=
| qr_log (text : string)
| qr_print (code : string)
| requestPairingCode (phone : string).

Definition onQr (st : QrState) (qr : string) : list qr_event * QrState :=
  let banner :=
    if negb (qrCodeShown st) then
      [qr_log "==========================================";
       qr_log "WHATSAPP QR CODE - SCAN WITH YOUR PHONE";
       qr_log "==========================================";
       qr_log "QR CODE DATA:";
       qr_print qr;
       qr_log "==========================================";
       qr_log "Instructions:";
       qr_log "Convert code to QR - https://www.qr-code-generator.com/";
       qr_log "1. Open WhatsApp on your phone";
       qr_log "2. Go to Settings > Linked Devices > Link a Device";
       qr_log "3. Scan the QR code above";
       qr_log "4. Wait for authentication...";
       qr_log "=========================================="]
    else [] in
  let shown := if negb (qrCodeShown st) then true else qrCodeShown st in
  let pairingCodeEnabled := false in
  let pairing := pairingCodeEnabled && negb (pairingCodeRequested st) in
  (qr_log "QR Code received - waiting for scan..." :: banner
   ++ (if pairing
       then [requestPairingCode "96170100100"; qr_log "Pairing code enabled, code:"]
       else []),
   {| qrCodeShown := shown;
      pairingCodeRequested :=
        if pairing then true else pairingCodeRequested st |}).

(** The handler over the [qr] events of a session, in order. *)
Fixpoint onQrs (st : QrState) (qrs : list string) : list qr_event * QrState :=
  match qrs with
  | [] => ([], st)
  | qr :: rest =>
      let (evs, st') := onQr st qr in
      let (evs', st'') := onQrs st' rest in
      (evs ++ evs', st'')
  end.

(** The codes a trace prints. *)
Fixpoint printed (trace : list qr_event) : list string :=
  match trace with
  | [] => []
  | qr_print code :: trace' => code :: printed trace'
  | _ :: trace' => printed trace'
  end.

Definition is_pairing_request (e : qr_event) : bool :=
  match e with
  | requestPairingCode _ => true
  | _ => false
  end.

(** *** The [call] handler *)

Record Call : Type := {
  call_from : string;
  call_fromMe : bool;
  call_isGroup : bool;
  call_isVideo : bool
}.

Inductive call_event : Type :=
| call_log
| call_reject
| call_sendMessage (to text : string).

(** [let rejectCalls = true], which nothing assigns to. *)
Definition rejectCalls : bool := true.

(** The template literal of the notice. *)
Definition call_notice (call : Call) : string :=
  ("[" ++ (if call_fromMe call then "Outgoing" else "Incoming")
   ++ "] Phone call from " ++ call_from call
   ++ ", type " ++ (if call_isGroup call then "group" else "")
   ++ " " ++ (if call_isVideo call then "video" else "audio")
   ++ " call. "
   ++ (if rejectCalls
       then "This call was automatically rejected by the script."
       else ""))%string.

(** [client.on('call', ...)], the same in both scripts: [rejected] is what
    [call.reject()] settles to, [sending] what [client.sendMessage] settles
    to. *)
Definition onCall (call : Call) (rejected sending : outcome unit)
  : list call_event * settled :=
  let notify :=
    match sending with
    | Resolves _ =>
        ([call_sendMessage (call_from call) (call_notice call)], Fulfilled)
    | Rejects error =>
        ([call_sendMessage (call_from call) (call_notice call)], Rejected error)
    end in
  if rejectCalls then
    match rejected with
    | Resolves _ => (call_log :: call_reject :: fst notify, snd notify)
    | Rejects error => ([call_log; call_reject], Rejected error)
    end
  else (call_log :: fst notify, snd notify).

(** *** Starting the client *)

Inductive init_event : Type :=
| init_log (text : string)
| init_error (text : string)
| client_initialize
| init_setTimeout (ms : Z)
| process_exit (code : Z).

(** [initializeWhatsApp()], with the callback of its [setTimeout]: [first]
    and [second] are what the two calls of [client.initialize()] settle to. *)
Definition initializeWhatsApp (first second : outcome unit) : list init_event :=
  [init_log "Initializing WhatsApp client...";
   init_log "Setting up Puppeteer with headless mode...";
   init_log "Starting client initialization...";
   client_initialize]
  ++ match first with
     | Resolves _ => [init_log "Client initialization completed"]
     | Rejects error =>
         [init_error "Error initializing WhatsApp client:";
          init_error "Full error:"]
         ++ if JsString.includes (err_message error) "already exists" then
              [init_log "Detected Puppeteer binding conflict. Attempting to restart...";
               init_setTimeout 5000;
               init_log "Retrying WhatsApp client initialization...";
               client_initialize]
              ++ match second with
                 | Resolves _ => []
                 | Rejects retryError =>
                     [init_error "Retry failed:";
                      init_log "Try restarting the service or clearing the cache";
                      process_exit 1]
                 end
            else
              [init_error "Fatal error during initialization";
               process_exit 1]
     end.

Fixpoint exits (trace : list init_event) : list Z :=
  match trace with
  | [] => []
  | process_exit code :: trace' => code :: exits trace'
  | _ :: trace' => exits trace'
  end.


End Handlers.

(** *** More sample requests *)

(** [JSON.parse] on further bodies, as [sample_parse] is on its own. *)
Definition more_bodies : list (string * json) :=
  [(json_text "{'to':'15551234567','message':'hello','type':'image'}",
    JObject [("to", JString "15551234567"); ("message", JString "hello");
             ("type", JString "image")]);
   (json_text "{'to':15551234567,'message':'hello'}",
    JObject [("to", JNumber 15551234567%float); ("message", JString "hello")]);
   (json_text "{'to':'15551234567','message':'here','type':'location','latitude':37.5,'longitude':-122.25,'name':'Office'}",
    JObject [("to", JString "15551234567"); ("message", JString "here");
             ("type", JString "location"); ("latitude", JNumber 37.5%float);
             ("longitude", JNumber (-122.25)%float);
             ("name", JString "Office")]);
   ("null", JNull);
   ("[]", JArray []);
   ("42", JNumber 42%float)].

Definition more_parse (body : string) : outcome json :=
  match get more_bodies body with
  | Some data => Resolves data
  | None => sample_parse body
  end.

(** A session that is not ready. *)
Definition closed_session (recipient : value) (c : content) : outcome Receipt :=
  Rejects {| err_name := "Error"; err_message := "Session closed" |}.

Definition more_handler (session : value -> content -> outcome Receipt)
  : IncomingMessage -> Handled :=
  Gateway.handler "s3cret" more_parse sample_pathname sample_array_toString
    sample_Location session true "2023-09-11T18:23:20.000Z".

(** * Properties *)

(** ** Strings and objects *)

Module JsStringFacts.

Import JsString.

Lemma startsWith_prefix (s p : string) :
  startsWith s p = true <-> exists post, s = p ++ post.
Proof.
  revert s; induction p as [|b p IH]; intros s; simpl.
  - split; [intros _; now exists s | intros _; now destruct s].
  - destruct s as [|a s].
    + split; [discriminate | intros [post H]; discriminate].
    + cbn [startsWith]. rewrite andb_true_iff, Ascii.eqb_eq, IH. split.
      * intros [-> [post ->]]. now exists post.
      * intros [post H]. injection H as -> ->. split; [reflexivity | now exists post].
Qed.

Lemma includes_substring (s t : string) :
  includes s t = true <-> substring_of t s.
Proof.
  unfold substring_of. induction s as [|a s IH].
  - cbn [includes]. rewrite orb_false_r, startsWith_prefix. split.
    + intros [post H]. now exists "", post.
    + intros [pre [post H]]. destruct pre; [now exists post | discriminate].
  - cbn [includes]. rewrite orb_true_iff, startsWith_prefix, IH. split.
    + intros [[post H] | [pre [post H]]].
      * now exists "", post.
      * exists (String a pre), post. simpl. now rewrite H.
    + intros [pre [post H]]. destruct pre as [|c pre].
      * left. now exists post.
      * right. injection H as _ H. now exists pre, post.
Qed.

Lemma append_nil_r (s : string) : s ++ "" = s.
Proof. induction s; simpl; congruence. Qed.

Lemma includes_self_append (s t : string) : includes (s ++ t) t = true.
Proof. apply includes_substring. exists s, "". now rewrite append_nil_r. Qed.

End JsStringFacts.

(** ** The filter engine *)

Section FilterFacts.

Variable toLowerCase : string -> string.
Variable apiConfig : ApiConfig.

Lemma array_includes_In (l : list string) (x : string) :
  array_includes l x = true <-> In x l.
Proof.
  unfold array_includes. rewrite existsb_exists. split.
  - intros [y [Hy E]]. apply String.eqb_eq in E. now subst.
  - intros H. exists x. split; [assumption | apply String.eqb_refl].
Qed.

Lemma is_string_eq (v : option json) (lit : string) :
  is_string v lit = true <-> v = Some (JString lit).
Proof.
  destruct v as [[]|]; simpl; try (split; [discriminate | congruence]).
  rewrite String.eqb_eq. split; congruence.
Qed.

Lemma nonempty_length {A : Type} (l : list A) :
  Nat.ltb 0 (List.length l) = false <-> l = [].
Proof. destruct l; unfold Nat.ltb; simpl; split; congruence. Qed.

Lemma passesb_passes (r : rule) (sender message : string) (meta : object) :
  passesb toLowerCase apiConfig r sender message meta = true
  <-> passes toLowerCase apiConfig r sender message meta.
Proof.
  destruct r; unfold passesb, passes; cbv zeta.
  - reflexivity.
  - rewrite negb_true_iff, andb_false_iff.
    destruct (skipOwnMessages _), (truthy _); intuition congruence.
  - rewrite negb_true_iff, andb_false_iff, <- is_string_eq.
    destruct (skipGroupMessages _), (is_string _ _); intuition congruence.
  - rewrite negb_true_iff, andb_false_iff, negb_false_iff,
      nonempty_length, array_includes_In. reflexivity.
  - rewrite negb_true_iff, andb_false_iff, negb_false_iff,
      nonempty_length, existsb_exists.
    unfold keyword_matches.
    split; (intros [H | [k [Hk Hm]]]; [now left | right; exists k; split; trivial]).
    + now apply JsStringFacts.includes_substring.
    + now apply JsStringFacts.includes_substring.
Qed.

(** The function is the conjunction of its five tests, taken in order. *)
Lemma shouldForwardMessage_tests (sender message : string) (meta : object) :
  shouldForwardMessage toLowerCase apiConfig sender message meta
  = passesb toLowerCase apiConfig RelayEnabled sender message meta
    && (passesb toLowerCase apiConfig OwnMessage sender message meta
    && (passesb toLowerCase apiConfig GroupMessage sender message meta
    && (passesb toLowerCase apiConfig AllowedSender sender message meta
    && passesb toLowerCase apiConfig RequiredKeyword sender message meta))).
Proof.
  unfold shouldForwardMessage, passesb; cbv zeta.
  destruct (enabled apiConfig); simpl; [|reflexivity].
  destruct (skipOwnMessages _ && truthy _); simpl; [reflexivity|].
  destruct (skipGroupMessages _ && is_string _ _); simpl; [reflexivity|].
  destruct (Nat.ltb 0 (List.length (allowedSenders _)) && negb _); simpl;
    [reflexivity|].
  destruct (Nat.ltb 0 (List.length (requiredKeywords _))); simpl; [|reflexivity].
  now destruct (existsb _ _).
Qed.

(** C1. The filter tests its five rules in the order of the specification
    (relay enabled; own messages; group messages; allowed senders, by equality
    of strings; required keywords, one of which must occur in the body once
    both are put in lower case).  It returns [true] exactly when every rule
    passes, and [false] exactly when some rule fails; the rule it stops at is
    then the first failing one, all rules before it having passed.  The
    function is a function of the configuration and its three arguments
    only: it has no state to change. *)
Theorem shouldForwardMessage_decision
    (sender message : string) (additionalData : object) :
  (shouldForwardMessage toLowerCase apiConfig sender message additionalData = true
   <-> forall r, passes toLowerCase apiConfig r sender message additionalData)
  /\
  (shouldForwardMessage toLowerCase apiConfig sender message additionalData = false
   <-> exists r,
         ~ passes toLowerCase apiConfig r sender message additionalData
         /\ forall r', rule_index r' < rule_index r ->
              passes toLowerCase apiConfig r' sender message additionalData).
Proof.
  rewrite shouldForwardMessage_tests. split.
  - rewrite !andb_true_iff. split.
    + intros (H1 & H2 & H3 & H4 & H5) r. apply passesb_passes. now destruct r.
    + intros H. repeat split; apply passesb_passes, H.
  - split.
    + intros H.
      destruct (passesb _ _ RelayEnabled _ _ _) eqn:E1; [| exists RelayEnabled ].
      destruct (passesb _ _ OwnMessage _ _ _) eqn:E2; [| exists OwnMessage ].
      destruct (passesb _ _ GroupMessage _ _ _) eqn:E3; [| exists GroupMessage ].
      destruct (passesb _ _ AllowedSender _ _ _) eqn:E4; [| exists AllowedSender ].
      destruct (passesb _ _ RequiredKeyword _ _ _) eqn:E5;
        [ discriminate | exists RequiredKeyword ].
      all: split;
        [ rewrite <- passesb_passes; congruence
        | intros r' Hr'; apply passesb_passes;
          destruct r'; simpl in Hr'; (assumption || lia) ].
    + intros [r [Hr _]]. rewrite <- passesb_passes in Hr.
      destruct r; apply not_true_is_false in Hr; rewrite Hr;
        rewrite ?andb_false_r; reflexivity.
Qed.

End FilterFacts.

(** ** The retry loop *)

Section RetryLoop.

Variable retryAttempts : Z.
Variable turn : Z -> list event * step.

Lemma observable_app (t1 t2 : list event) :
  observable (t1 ++ t2)%list = (observable t1 ++ observable t2)%list.
Proof. apply filter_app. Qed.

(** If the turns before [k] fall through and turn [k] returns [b], the loop
    returns [b] after turn [k]; [obs] gives what each turn shows. *)
Lemma retry_loop_returns_at (k : Z) (b : bool) (obs : Z -> list event) :
  (k <= retryAttempts)%Z ->
  (forall j, (1 <= j < k)%Z ->
     observable (fst (turn j)) = obs j /\ snd (turn j) = Next) ->
  observable (fst (turn k)) = obs k /\ snd (turn k) = Return b ->
  forall (n fuel : nat) (a : Z),
    (1 <= a <= k)%Z -> n = Z.to_nat (k - a) -> n < fuel ->
    exists trace,
      retry_loop retryAttempts turn fuel a = Some (trace, b)
      /\ observable trace = concat (map obs (zrange a (S n))).
Proof.
  intros Hk Hbefore [Hobs Hret] n.
  induction n as [|n IH]; intros fuel a Ha Hn Hfuel.
  - assert (a = k) by lia. subst a.
    destruct fuel as [|fuel]; [lia|]. cbn [retry_loop].
    replace (k <=? retryAttempts)%Z with true by (symmetry; apply Z.leb_le; lia).
    destruct (turn k) as [evs st]. simpl in Hobs, Hret. subst st.
    exists evs. split; [reflexivity|]. simpl. now rewrite app_nil_r.
  - destruct fuel as [|fuel]; [lia|]. cbn [retry_loop].
    replace (a <=? retryAttempts)%Z with true by (symmetry; apply Z.leb_le; lia).
    destruct (Hbefore a ltac:(lia)) as [Hobs_a Hnext].
    destruct (turn a) as [evs st]. simpl in Hobs_a, Hnext. subst st.
    destruct (IH fuel (a + 1)%Z ltac:(lia) ltac:(lia) ltac:(lia))
      as [trace [-> Htrace]].
    exists (evs ++ trace)%list. split; [reflexivity|].
    rewrite observable_app, Hobs_a, Htrace. reflexivity.
Qed.

(** The loop ends whenever the turn of the last attempt returns. *)
Lemma retry_loop_total :
  (forall a, snd (turn a) = Next -> a <> retryAttempts) ->
  forall (fuel : nat) (a : Z),
    (1 <= a)%Z -> Z.to_nat (retryAttempts + 1 - a) <= fuel ->
    exists run, retry_loop retryAttempts turn fuel a = Some run.
Proof.
  intros Hlast fuel. induction fuel as [|fuel IH]; intros a Ha Hfuel.
  - simpl. replace (a <=? retryAttempts)%Z with false
      by (symmetry; apply Z.leb_gt; lia). now eexists.
  - cbn [retry_loop]. destruct (a <=? retryAttempts)%Z eqn:E; [|now eexists].
    apply Z.leb_le in E. destruct (turn a) as [evs st] eqn:Et.
    destruct st as [b|]; [now eexists|].
    assert (a <> retryAttempts) by (apply Hlast; now rewrite Et).
    destruct (IH (a + 1)%Z ltac:(lia) ltac:(lia)) as [[trace b] ->].
    now eexists.
Qed.

End RetryLoop.

(** Two loops whose turns show the same and end the same show the same. *)
Lemma retry_loop_observe (retryAttempts : Z) (turn1 turn2 : Z -> list event * step) :
  (forall a, observable (fst (turn1 a)) = observable (fst (turn2 a))
             /\ snd (turn1 a) = snd (turn2 a)) ->
  forall (fuel : nat) (a : Z),
    observe (retry_loop retryAttempts turn1 fuel a)
    = observe (retry_loop retryAttempts turn2 fuel a).
Proof.
  intros H fuel. induction fuel as [|fuel IH]; intros a.
  - simpl. now destruct (a <=? retryAttempts)%Z.
  - cbn [retry_loop]. destruct (a <=? retryAttempts)%Z; [|reflexivity].
    destruct (H a) as [Hobs Hst].
    destruct (turn1 a) as [e1 s1], (turn2 a) as [e2 s2]. simpl in Hobs, Hst.
    subst s2. destruct s1 as [b|]; simpl; [now rewrite Hobs|].
    specialize (IH (a + 1)%Z).
    destruct (retry_loop retryAttempts turn1 fuel (a + 1)%Z) as [[t1 b1]|],
             (retry_loop retryAttempts turn2 fuel (a + 1)%Z) as [[t2 b2]|];
      simpl in IH |- *; try discriminate; [|reflexivity].
    injection IH as Ht Hb. now rewrite !observable_app, Hobs, Ht, Hb.
Qed.

Lemma attempts_made_observable (trace : list event) :
  attempts_made (observable trace) = attempts_made trace.
Proof.
  unfold attempts_made, observable.
  induction trace as [|e trace IH]; [reflexivity|].
  destruct e; simpl; rewrite ?IH; try reflexivity; simpl in *; now rewrite IH.
Qed.

Lemma delays_observable (trace : list event) :
  delays (observable trace) = delays trace.
Proof.
  unfold observable.
  induction trace as [|e trace IH]; [reflexivity|].
  destruct e; simpl; now rewrite ?IH.
Qed.

Lemma posted_observable (trace : list event) :
  posted (observable trace) = posted trace.
Proof.
  unfold observable.
  induction trace as [|e trace IH]; [reflexivity|].
  destruct e; simpl; now rewrite ?IH.
Qed.

Section Alternation.

Variable call : Z -> event.
Variable delay : Z.
Hypothesis call_is_fetch : forall j, exists url init, call j = fetch_call url init.

Lemma alternate_concat (last : Z) (n : nat) :
  forall a, last = (a + Z.of_nat n)%Z ->
    concat (map (fun j => call j :: if (j =? last)%Z then [] else [setTimeout delay])
                (zrange a (S n)))
    = alternate (map call (zrange a (S n))) (setTimeout delay).
Proof.
  induction n as [|n IH]; intros a Hlast.
  - simpl. replace (a =? last)%Z with true by (symmetry; apply Z.eqb_eq; lia).
    reflexivity.
  - change (zrange a (S (S n))) with (a :: zrange (a + 1) (S n)).
    rewrite !map_cons. cbn [concat].
    replace (a =? last)%Z with false by (symmetry; apply Z.eqb_neq; lia).
    rewrite (IH (a + 1)%Z) by lia. reflexivity.
Qed.

Lemma attempts_made_alternate (l : list Z) :
  attempts_made (alternate (map call l) (setTimeout delay)) = List.length l.
Proof.
  unfold attempts_made. induction l as [|j l IH]; [reflexivity|].
  destruct (call_is_fetch j) as (url & init & Hj).
  destruct l as [|j' l]; simpl in *; rewrite Hj; simpl; [reflexivity|].
  now rewrite IH.
Qed.

Lemma delays_alternate (l : list Z) :
  delays (alternate (map call l) (setTimeout delay))
  = repeat delay (List.length l - 1).
Proof.
  induction l as [|j l IH]; [reflexivity|].
  destruct (call_is_fetch j) as (url & init & Hj).
  destruct l as [|j' l]; simpl in *; rewrite Hj; simpl; [reflexivity|].
  rewrite IH. now rewrite Nat.sub_0_r.
Qed.

Lemma zrange_length (n : nat) : forall a, List.length (zrange a n) = n.
Proof. induction n; intros a; simpl; [reflexivity | now rewrite IHn]. Qed.

(** From what the turns show to the shape of the run. *)
Lemma ends_after_intro (k : Z) (b : bool) (run : option (list event * bool)) :
  (1 <= k)%Z ->
  (exists trace,
     run = Some (trace, b)
     /\ observable trace
        = concat (map (fun j => call j ::
                         if (j =? k)%Z then [] else [setTimeout delay])
                      (zrange 1 (S (Z.to_nat (k - 1)))))) ->
  ends_after (Z.to_nat k) b delay call run.
Proof.
  intros Hk (trace & Hrun & Hobs).
  rewrite alternate_concat in Hobs by lia.
  replace (S (Z.to_nat (k - 1))) with (Z.to_nat k) in Hobs by lia.
  exists trace. split; [assumption|]. repeat split.
  - now rewrite <- attempts_made_observable, Hobs, attempts_made_alternate,
      zrange_length.
  - now rewrite <- delays_observable, Hobs, delays_alternate, zrange_length.
  - assumption.
Qed.

End Alternation.

(** ** The delivery pipeline *)

Section DeliveryFacts.

Variable apiConfig : ApiConfig.
Variable now : Z -> string.
Variable fetch : Z -> outcome Response.
Variables sender message : string.
Variable additionalData : object.

Let call : Z -> event := call_of apiConfig now sender message additionalData.
Let wait : event := setTimeout (retryDelay apiConfig).

Lemma call_of_is_fetch (j : Z) : exists url init, call j = fetch_call url init.
Proof. unfold call, call_of. now eexists _, _. Qed.

(** A failing attempt of the server script: the call, then either the
    [return false] of the last attempt or the wait. *)
Lemma Bot_turn_failed (k : Z) :
  failed_attempt (fetch k) = true ->
  observable (fst (Bot.turn apiConfig now fetch sender message additionalData k))
  = call k :: (if (k =? retryAttempts apiConfig)%Z then [] else [wait])
  /\ snd (Bot.turn apiConfig now fetch sender message additionalData k)
     = if (k =? retryAttempts apiConfig)%Z then Return false else Next.
Proof.
  unfold failed_attempt, Bot.turn, Bot.catch_block, Bot.retry_or_stop, when,
    call, wait, call_of.
  intros H.
  destruct (fetch k) as [r|e]; [destruct (ok r); [discriminate|]; destruct (text r)|];
    destruct (debug apiConfig), (logErrors apiConfig),
      (k =? retryAttempts apiConfig)%Z; split; reflexivity.
Qed.

(** An attempt of the server script answered with a 2xx status. *)
Lemma Bot_turn_ok (k : Z) (response : Response) :
  fetch k = Resolves response -> ok response = true ->
  observable (fst (Bot.turn apiConfig now fetch sender message additionalData k))
  = [call k]
  /\ snd (Bot.turn apiConfig now fetch sender message additionalData k)
     = Return true.
Proof.
  unfold Bot.turn, when, call, call_of. intros -> ->.
  destruct (debug apiConfig), (logSuccess apiConfig); split; reflexivity.
Qed.

Lemma Example_turn_failed (k : Z) :
  failed_attempt (fetch k) = true ->
  observable (fst (Example.turn apiConfig now fetch sender message additionalData k))
  = call k :: (if (k =? retryAttempts apiConfig)%Z then [] else [wait])
  /\ snd (Example.turn apiConfig now fetch sender message additionalData k)
     = if (k =? retryAttempts apiConfig)%Z then Return false else Next.
Proof.
  unfold failed_attempt, Example.turn, Example.catch_block, Example.retry_or_stop,
    when, call, wait, call_of.
  intros H.
  destruct (fetch k) as [r|e]; [destruct (ok r); [discriminate|]; destruct (text r)|];
    destruct (logErrors apiConfig),
      (k =? retryAttempts apiConfig)%Z; split; reflexivity.
Qed.

(** In [example.js] a 2xx status counts once the body has been read. *)
Lemma Example_turn_ok (k : Z) (response : Response) (responseText : string) :
  fetch k = Resolves response -> ok response = true ->
  text response = Resolves responseText ->
  observable (fst (Example.turn apiConfig now fetch sender message additionalData k))
  = [call k]
  /\ snd (Example.turn apiConfig now fetch sender message additionalData k)
     = Return true.
Proof.
  unfold Example.turn, when, call, call_of. intros -> -> ->.
  destruct (logSuccess apiConfig); split; reflexivity.
Qed.

(** A turn falls through only before the last attempt. *)
Lemma Bot_turn_next (a : Z) :
  snd (Bot.turn apiConfig now fetch sender message additionalData a) = Next ->
  a <> retryAttempts apiConfig.
Proof.
  unfold Bot.turn, Bot.catch_block, Bot.retry_or_stop. intros H E.
  apply Z.eqb_eq in E. rewrite E in H.
  destruct (fetch a) as [r|e]; [destruct (ok r); [|destruct (text r)]|];
    discriminate H.
Qed.

Lemma Example_turn_next (a : Z) :
  snd (Example.turn apiConfig now fetch sender message additionalData a) = Next ->
  a <> retryAttempts apiConfig.
Proof.
  unfold Example.turn, Example.catch_block, Example.retry_or_stop. intros H E.
  apply Z.eqb_eq in E. rewrite E in H.
  destruct (fetch a) as [r|e]; [destruct (text r); [destruct (ok r)|]|];
    discriminate H.
Qed.

(** [forwardMessageToAPI] always returns: the fuel given to the loop is
    enough, whatever the endpoint answers. *)
Theorem forwardMessageToAPI_returns :
  (exists run,
     Bot.forwardMessageToAPI apiConfig now fetch sender message additionalData
     = Some run)
  /\ (exists run,
        Example.forwardMessageToAPI apiConfig now fetch sender message
          additionalData
        = Some run).
Proof.
  split.
  - apply retry_loop_total; [apply Bot_turn_next | lia | lia].
  - apply retry_loop_total; [apply Example_turn_next | lia | lia].
Qed.

(** The frame shared by the theorems on runs: the attempts before [k] fail,
    attempt [k] returns [b]. *)
Lemma run_ends_after (turn : Z -> list event * step) (k : Z) (b : bool) :
  (1 <= k <= retryAttempts apiConfig)%Z ->
  (forall j, (1 <= j < k)%Z ->
     observable (fst (turn j)) = [call j; wait] /\ snd (turn j) = Next) ->
  observable (fst (turn k)) = [call k] /\ snd (turn k) = Return b ->
  ends_after (Z.to_nat k) b (retryDelay apiConfig) call
    (retry_loop (retryAttempts apiConfig) turn
       (Z.to_nat (retryAttempts apiConfig)) 1%Z).
Proof.
  intros Hk Hbefore Hat.
  apply ends_after_intro; [apply call_of_is_fetch | lia |].
  apply (retry_loop_returns_at (retryAttempts apiConfig) turn k b
           (fun j => call j :: if (j =? k)%Z then [] else [wait]));
    try lia.
  - intros j Hj. replace (j =? k)%Z with false by (symmetry; apply Z.eqb_neq; lia).
    now apply Hbefore.
  - now rewrite Z.eqb_refl.
Qed.

End DeliveryFacts.

(** C2. With [retryAttempts = N >= 1] and every attempt failing (the call
    rejected, or answered with a status outside 2xx), [forwardMessageToAPI]
    returns [false] after exactly [N] calls of [fetch], having waited
    [retryDelay] between every two consecutive calls and at no other time,
    that is [N - 1] times.  This holds of both scripts. *)
Theorem permanent_failure_exhausts_retries
    (apiConfig : ApiConfig) (now : Z -> string) (fetch : Z -> outcome Response)
    (sender message : string) (additionalData : object) :
  (1 <= retryAttempts apiConfig)%Z ->
  (forall k, (1 <= k <= retryAttempts apiConfig)%Z ->
     failed_attempt (fetch k) = true) ->
  ends_after (Z.to_nat (retryAttempts apiConfig)) false (retryDelay apiConfig)
    (call_of apiConfig now sender message additionalData)
    (Bot.forwardMessageToAPI apiConfig now fetch sender message additionalData)
  /\
  ends_after (Z.to_nat (retryAttempts apiConfig)) false (retryDelay apiConfig)
    (call_of apiConfig now sender message additionalData)
    (Example.forwardMessageToAPI apiConfig now fetch sender message
       additionalData).
Proof.
  intros HN Hfail. split.
  - apply run_ends_after; [lia | intros j Hj |].
    + destruct (Bot_turn_failed apiConfig now fetch sender message
                  additionalData j (Hfail j ltac:(lia))) as [Ho Hs].
      replace (j =? retryAttempts apiConfig)%Z with false in Ho, Hs
        by (symmetry; apply Z.eqb_neq; lia).
      now split.
    + destruct (Bot_turn_failed apiConfig now fetch sender message
                  additionalData _
                  (Hfail (retryAttempts apiConfig) ltac:(lia))) as [Ho Hs].
      rewrite Z.eqb_refl in Ho, Hs. now split.
  - apply run_ends_after; [lia | intros j Hj |].
    + destruct (Example_turn_failed apiConfig now fetch sender message
                  additionalData j (Hfail j ltac:(lia))) as [Ho Hs].
      replace (j =? retryAttempts apiConfig)%Z with false in Ho, Hs
        by (symmetry; apply Z.eqb_neq; lia).
      now split.
    + destruct (Example_turn_failed apiConfig now fetch sender message
                  additionalData _
                  (Hfail (retryAttempts apiConfig) ltac:(lia))) as [Ho Hs].
      rewrite Z.eqb_refl in Ho, Hs. now split.
Qed.

(** In the server script, a 2xx status on attempt [k <= N], after [k - 1]
    failed attempts, ends the run at once with [true]: [k] calls were made,
    with [k - 1] waits between them. *)
Theorem Bot_success_stops_retrying
    (apiConfig : ApiConfig) (now : Z -> string) (fetch : Z -> outcome Response)
    (sender message : string) (additionalData : object)
    (k : Z) (response : Response) :
  (1 <= k <= retryAttempts apiConfig)%Z ->
  (forall j, (1 <= j < k)%Z -> failed_attempt (fetch j) = true) ->
  fetch k = Resolves response -> ok response = true ->
  ends_after (Z.to_nat k) true (retryDelay apiConfig)
    (call_of apiConfig now sender message additionalData)
    (Bot.forwardMessageToAPI apiConfig now fetch sender message additionalData).
Proof.
  intros Hk Hfail Hresp Hok.
  apply run_ends_after; [lia | intros j Hj |].
  - destruct (Bot_turn_failed apiConfig now fetch sender message
                additionalData j (Hfail j Hj)) as [Ho Hs].
    replace (j =? retryAttempts apiConfig)%Z with false in Ho, Hs
      by (symmetry; apply Z.eqb_neq; lia).
    now split.
  - now apply Bot_turn_ok with response.
Qed.

(** In [example.js] the same holds when the body of the 2xx response can be
    read. *)
Theorem Example_success_stops_retrying
    (apiConfig : ApiConfig) (now : Z -> string) (fetch : Z -> outcome Response)
    (sender message : string) (additionalData : object)
    (k : Z) (response : Response) (responseText : string) :
  (1 <= k <= retryAttempts apiConfig)%Z ->
  (forall j, (1 <= j < k)%Z -> failed_attempt (fetch j) = true) ->
  fetch k = Resolves response -> ok response = true ->
  text response = Resolves responseText ->
  ends_after (Z.to_nat k) true (retryDelay apiConfig)
    (call_of apiConfig now sender message additionalData)
    (Example.forwardMessageToAPI apiConfig now fetch sender message
       additionalData).
Proof.
  intros Hk Hfail Hresp Hok Htext.
  apply run_ends_after; [lia | intros j Hj |].
  - destruct (Example_turn_failed apiConfig now fetch sender message
                additionalData j (Hfail j Hj)) as [Ho Hs].
    replace (j =? retryAttempts apiConfig)%Z with false in Ho, Hs
      by (symmetry; apply Z.eqb_neq; lia).
    now split.
  - now apply Example_turn_ok with response responseText.
Qed.

(** What a turn shows and how it ends does not depend on the logging flags. *)
Lemma Bot_turn_flags (apiConfig : ApiConfig) (now : Z -> string)
    (fetch : Z -> outcome Response) (sender message : string)
    (additionalData : object) (s e d : bool) (a : Z) :
  observable
    (fst (Bot.turn (with_flags apiConfig s e d) now fetch sender message
            additionalData a))
  = observable
      (fst (Bot.turn (with_flags apiConfig false false false) now fetch sender
              message additionalData a))
  /\ snd (Bot.turn (with_flags apiConfig s e d) now fetch sender message
            additionalData a)
     = snd (Bot.turn (with_flags apiConfig false false false) now fetch sender
              message additionalData a).
Proof.
  unfold Bot.turn, Bot.catch_block, Bot.retry_or_stop, when.
  cbn [with_flags debug logErrors logSuccess retryAttempts retryDelay].
  destruct (fetch a) as [r|err]; [destruct (ok r); [|destruct (text r)]|];
    destruct s, e, d, (a =? retryAttempts apiConfig)%Z; split; reflexivity.
Qed.

Lemma Example_turn_flags (apiConfig : ApiConfig) (now : Z -> string)
    (fetch : Z -> outcome Response) (sender message : string)
    (additionalData : object) (s e d : bool) (a : Z) :
  observable
    (fst (Example.turn (with_flags apiConfig s e d) now fetch sender message
            additionalData a))
  = observable
      (fst (Example.turn (with_flags apiConfig false false false) now fetch
              sender message additionalData a))
  /\ snd (Example.turn (with_flags apiConfig s e d) now fetch sender message
            additionalData a)
     = snd (Example.turn (with_flags apiConfig false false false) now fetch
              sender message additionalData a).
Proof.
  unfold Example.turn, Example.catch_block, Example.retry_or_stop, when.
  cbn [with_flags debug logErrors logSuccess retryAttempts retryDelay].
  destruct (fetch a) as [r|err]; [destruct (text r); [destruct (ok r)|]|];
    destruct s, e, (a =? retryAttempts apiConfig)%Z; split; reflexivity.
Qed.

Lemma control_flow_observe (run1 run2 : option (list event * bool)) :
  observe run1 = observe run2 -> control_flow run1 = control_flow run2.
Proof.
  destruct run1 as [[t1 b1]|], run2 as [[t2 b2]|]; simpl; try discriminate;
    [|reflexivity].
  intros H. injection H as Ht Hb. subst b2.
  now rewrite <- (attempts_made_observable t1), <- (delays_observable t1), Ht,
    attempts_made_observable, delays_observable.
Qed.

(** C9. For a fixed event and a fixed sequence of answers of the endpoint, two
    runs of [forwardMessageToAPI] that differ only in the values of
    [logSuccess], [logErrors] and [debug] return the same boolean, make the
    same number of attempts and wait the same delays; they make the very same
    calls and waits in the same order, and differ in console output only.
    This holds of both scripts. *)
Theorem logging_flags_do_not_interfere
    (apiConfig : ApiConfig) (now : Z -> string) (fetch : Z -> outcome Response)
    (sender message : string) (additionalData : object)
    (s1 e1 d1 s2 e2 d2 : bool) :
  let bot s e d :=
    Bot.forwardMessageToAPI (with_flags apiConfig s e d) now fetch sender
      message additionalData in
  let example s e d :=
    Example.forwardMessageToAPI (with_flags apiConfig s e d) now fetch sender
      message additionalData in
  (control_flow (bot s1 e1 d1) = control_flow (bot s2 e2 d2)
   /\ observe (bot s1 e1 d1) = observe (bot s2 e2 d2))
  /\
  (control_flow (example s1 e1 d1) = control_flow (example s2 e2 d2)
   /\ observe (example s1 e1 d1) = observe (example s2 e2 d2)).
Proof.
  cbv zeta.
  assert (Hbot :
    observe (Bot.forwardMessageToAPI (with_flags apiConfig s1 e1 d1) now fetch
               sender message additionalData)
    = observe (Bot.forwardMessageToAPI (with_flags apiConfig s2 e2 d2) now fetch
                 sender message additionalData)).
  { unfold Bot.forwardMessageToAPI. cbn [with_flags retryAttempts].
    etransitivity; [apply retry_loop_observe, Bot_turn_flags|].
    symmetry. apply retry_loop_observe, Bot_turn_flags. }
  assert (Hexample :
    observe (Example.forwardMessageToAPI (with_flags apiConfig s1 e1 d1) now
               fetch sender message additionalData)
    = observe (Example.forwardMessageToAPI (with_flags apiConfig s2 e2 d2) now
                 fetch sender message additionalData)).
  { unfold Example.forwardMessageToAPI. cbn [with_flags retryAttempts].
    etransitivity; [apply retry_loop_observe, Example_turn_flags|].
    symmetry. apply retry_loop_observe, Example_turn_flags. }
  repeat split; auto using control_flow_observe.
Qed.

(** The theorem on permanent failure, at the sample configuration (three
    attempts) and an endpoint that refuses every connection. *)
Lemma permanent_failure_witness :
  ends_after 3 false 1000
    (call_of sample_config sample_clock "15551234567@c.us" "Please HELP me"
       (additionalData_of sample_msg sample_chat))
    (Bot.forwardMessageToAPI sample_config sample_clock refusing
       "15551234567@c.us" "Please HELP me"
       (additionalData_of sample_msg sample_chat))
  /\
  ends_after 3 false 1000
    (call_of sample_config sample_clock "15551234567@c.us" "Please HELP me"
       (additionalData_of sample_msg sample_chat))
    (Example.forwardMessageToAPI sample_config sample_clock refusing
       "15551234567@c.us" "Please HELP me"
       (additionalData_of sample_msg sample_chat)).
Proof.
  apply (permanent_failure_exhausts_retries sample_config sample_clock refusing).
  - simpl. lia.
  - intros k _. reflexivity.
Defined.

(** The server script at an endpoint that recovers on the third attempt. *)
Lemma Bot_success_witness :
  ends_after 3 true 1000
    (call_of sample_config sample_clock "15551234567@c.us" "Please HELP me"
       (additionalData_of sample_msg sample_chat))
    (Bot.forwardMessageToAPI sample_config sample_clock recovering
       "15551234567@c.us" "Please HELP me"
       (additionalData_of sample_msg sample_chat)).
Proof.
  apply (Bot_success_stops_retrying sample_config sample_clock recovering
           _ _ _ 3%Z
           {| status := 200; statusText := "OK";
              response_headers := []; text := Resolves "{}" |}).
  - simpl. lia.
  - intros j Hj. unfold recovering.
    replace (j <? 3)%Z with true by (symmetry; apply Z.ltb_lt; lia).
    reflexivity.
  - reflexivity.
  - reflexivity.
Defined.

Lemma Example_success_witness :
  ends_after 3 true 1000
    (call_of sample_config sample_clock "15551234567@c.us" "Please HELP me"
       (additionalData_of sample_msg sample_chat))
    (Example.forwardMessageToAPI sample_config sample_clock recovering
       "15551234567@c.us" "Please HELP me"
       (additionalData_of sample_msg sample_chat)).
Proof.
  apply (Example_success_stops_retrying sample_config sample_clock recovering
           _ _ _ 3%Z
           {| status := 200; statusText := "OK";
              response_headers := []; text := Resolves "{}" |} "{}").
  - simpl. lia.
  - intros j Hj. unfold recovering.
    replace (j <? 3)%Z with true by (symmetry; apply Z.ltb_lt; lia).
    reflexivity.
  - reflexivity.
  - reflexivity.
  - reflexivity.
Defined.

(** C7. A 2xx status whose body cannot be read: the server script returns
    [true] after this one attempt; [example.js], which reads the body before
    it looks at the status, takes the attempt for a failed one, goes on to
    attempts 2 and 3 and returns [false]. *)
Theorem Example_retries_after_success_status :
  (exists response,
     cut_short 1 = Resolves response /\ ok response = true)
  /\ control_flow
       (Bot.forwardMessageToAPI sample_config sample_clock cut_short
          "15551234567@c.us" "Please HELP me"
          (additionalData_of sample_msg sample_chat))
     = Some (true, 1, [])
  /\ control_flow
       (Example.forwardMessageToAPI sample_config sample_clock cut_short
          "15551234567@c.us" "Please HELP me"
          (additionalData_of sample_msg sample_chat))
     = Some (false, 3, [1000; 1000]%Z).
Proof.
  split; [eexists; split; reflexivity|]. split; reflexivity.
Qed.

(** ** The payload *)

(** The payload of a message of the [message] handler, property by property.
    The [timestamp] of [additionalData] is written over the ISO string. *)
Lemma payload_of_message (sender message iso : string) (msg : Message)
    (chat : Chat) :
  payload_of sender message iso (additionalData_of msg chat)
  = [("sender", JString sender);
     ("message", JString message);
     ("timestamp", JNumber (msg_timestamp msg));
     ("messageId", JString (msg_id_serialized msg));
     ("chatType", JString (if chat_isGroup chat then "group" else "private"));
     ("chatName",
      JString (if String.eqb (chat_name chat) "" then "Unknown"
               else chat_name chat));
     ("messageType", JString (msg_type msg));
     ("hasMedia", JBool (msg_hasMedia msg));
     ("isFromMe", JBool (msg_fromMe msg))].
Proof. reflexivity. Qed.

Lemma posted_app (t1 t2 : list event) :
  posted (t1 ++ t2)%list = (posted t1 ++ posted t2)%list.
Proof.
  induction t1 as [|e t1 IH]; [reflexivity|].
  destruct e; simpl; now rewrite ?IH.
Qed.

(** What holds of the bodies of every turn holds of the bodies of the run. *)
Lemma retry_loop_posted (P : object -> Prop) (retryAttempts : Z)
    (turn : Z -> list event * step) :
  (forall a, Forall P (posted (fst (turn a)))) ->
  forall (fuel : nat) (a : Z),
    Forall P (posted_by (retry_loop retryAttempts turn fuel a)).
Proof.
  intros H fuel. induction fuel as [|fuel IH]; intros a.
  - simpl. destruct (a <=? retryAttempts)%Z; constructor.
  - cbn [retry_loop]. destruct (a <=? retryAttempts)%Z; [|constructor].
    specialize (H a). specialize (IH (a + 1)%Z).
    destruct (turn a) as [evs [b|]]; [exact H|].
    destruct (retry_loop retryAttempts turn fuel (a + 1)%Z) as [[trace b]|];
      [|constructor].
    simpl in *. rewrite posted_app. apply Forall_app. now split.
Qed.

Lemma Bot_turn_posted (apiConfig : ApiConfig) (now : Z -> string)
    (fetch : Z -> outcome Response) (sender message : string)
    (additionalData : object) (a : Z) :
  posted (fst (Bot.turn apiConfig now fetch sender message additionalData a))
  = [payload_of sender message (now a) additionalData].
Proof.
  unfold Bot.turn, Bot.catch_block, Bot.retry_or_stop, when.
  destruct (fetch a) as [r|err]; [destruct (ok r); [|destruct (text r)]|];
    destruct (debug apiConfig), (logErrors apiConfig), (logSuccess apiConfig),
      (a =? retryAttempts apiConfig)%Z; reflexivity.
Qed.

Lemma Example_turn_posted (apiConfig : ApiConfig) (now : Z -> string)
    (fetch : Z -> outcome Response) (sender message : string)
    (additionalData : object) (a : Z) :
  posted (fst (Example.turn apiConfig now fetch sender message additionalData a))
  = [payload_of sender message (now a) additionalData].
Proof.
  unfold Example.turn, Example.catch_block, Example.retry_or_stop, when.
  destruct (fetch a) as [r|err]; [destruct (text r); [destruct (ok r)|]|];
    destruct (logErrors apiConfig), (logSuccess apiConfig),
      (a =? retryAttempts apiConfig)%Z; reflexivity.
Qed.

(** C3. Every body the pipeline posts for a message of the [message] handler
    holds [sender], [message] and the metadata fields [messageId], [chatType],
    [chatName], [messageType], [hasMedia] and [isFromMe]; under the key
    [timestamp] it holds the number [msg.timestamp], the time of the message
    in seconds since the epoch, and not the ISO-8601 string of the time of
    forwarding, which the spread of [additionalData] has written over.  This
    holds of both scripts, at every attempt. *)
Theorem posted_timestamp_is_message_time
    (apiConfig : ApiConfig) (now : Z -> string) (fetch : Z -> outcome Response)
    (msg : Message) (chat : Chat) :
  Forall (carries_message_time msg chat)
    (posted_by
       (Bot.forwardMessageToAPI apiConfig now fetch (msg_from msg)
          (msg_body msg) (additionalData_of msg chat)))
  /\
  Forall (carries_message_time msg chat)
    (posted_by
       (Example.forwardMessageToAPI apiConfig now fetch (msg_from msg)
          (msg_body msg) (additionalData_of msg chat))).
Proof.
  split; apply retry_loop_posted; intros a.
  - rewrite Bot_turn_posted. constructor; [|constructor].
    rewrite payload_of_message. repeat split.
  - rewrite Example_turn_posted. constructor; [|constructor].
    rewrite payload_of_message. repeat split.
Qed.

(** The sample message, posted to an endpoint that refuses: three bodies, each
    with the number 1694456538 under [timestamp]. *)
Example sample_posted_timestamps :
  map (fun body => get body "timestamp")
    (posted_by
       (Bot.forwardMessageToAPI sample_config sample_clock refusing
          (msg_from sample_msg) (msg_body sample_msg)
          (additionalData_of sample_msg sample_chat)))
  = [Some (JNumber 1694456538%float);
     Some (JNumber 1694456538%float);
     Some (JNumber 1694456538%float)].
Proof. reflexivity. Qed.

(** ** The filter engine on the sample configuration *)

Example sample_message_is_forwarded :
  shouldForwardMessage JsString.toLowerCase sample_config
    "15551234567@c.us" "Please HELP me"
    (additionalData_of sample_msg sample_chat)
  = true.
Proof. reflexivity. Qed.

Example sender_match_is_exact :
  shouldForwardMessage JsString.toLowerCase sample_config
    "15551234567@C.US" "Please HELP me"
    (additionalData_of sample_msg sample_chat)
  = false.
Proof. reflexivity. Qed.

Example keyword_is_required :
  shouldForwardMessage JsString.toLowerCase sample_config
    "15551234567@c.us" "good morning"
    (additionalData_of sample_msg sample_chat)
  = false.
Proof. reflexivity. Qed.

(** ** The gateway *)

Section GatewayFacts.

Variable HTTP_AUTH_TOKEN : string.
Variable JSON_parse : string -> outcome json.
Variable pathname : string -> option string.
Variable array_toString : list json -> string.
Variable new_Location : value -> value -> value -> value -> outcome content.
Variable sendMessage : value -> content -> outcome Receipt.
Variable client_info : bool.
Variable now : string.

Let handler : IncomingMessage -> Handled :=
  Gateway.handler HTTP_AUTH_TOKEN JSON_parse pathname array_toString
    new_Location sendMessage client_info now.

Let send_route : string -> Handled :=
  Gateway.send_route JSON_parse array_toString new_Location sendMessage.

Lemma authorized_bearer :
  Gateway.unauthorized HTTP_AUTH_TOKEN (Some ("Bearer " ++ HTTP_AUTH_TOKEN))
  = false.
Proof. unfold Gateway.unauthorized. now rewrite String.eqb_refl. Qed.

Lemma unauthorized_other (authHeader : option string) :
  authHeader <> Some ("Bearer " ++ HTTP_AUTH_TOKEN) ->
  Gateway.unauthorized HTTP_AUTH_TOKEN authHeader = true.
Proof.
  destruct authHeader as [h|]; [|reflexivity]. intros H.
  unfold Gateway.unauthorized.
  destruct (String.eqb_spec h ("Bearer " ++ HTTP_AUTH_TOKEN)) as [->|_].
  - now contradiction H.
  - apply orb_true_r.
Qed.

(** An authorized [POST /send] is handled by the [end] callback. *)
Lemma handler_send_route (req : IncomingMessage) :
  req_method req = "POST" ->
  pathname (req_url req) = Some "/send" ->
  req_authorization req = Some ("Bearer " ++ HTTP_AUTH_TOKEN) ->
  handler req = send_route (req_body req).
Proof.
  unfold handler, send_route, Gateway.handler. intros -> -> ->.
  now rewrite authorized_bearer.
Qed.

(** C5. A request whose method is not [OPTIONS] and whose [Authorization]
    header is missing, or is not exactly [Bearer] followed by the token, is
    answered 401 with the body [{error: "Unauthorized"}], on every route.
    The answer is given before the URL is parsed and before the body is read
    or parsed: it is the same whatever they are, the session is not called
    and nothing is logged. *)
Theorem unauthorized_requests_get_401 (req : IncomingMessage) :
  req_method req <> "OPTIONS" ->
  req_authorization req <> Some ("Bearer " ++ HTTP_AUTH_TOKEN) ->
  handler req = reply 401 [("error", JString "Unauthorized")].
Proof.
  unfold handler, Gateway.handler. intros Hm Ha.
  apply String.eqb_neq in Hm. rewrite Hm.
  now rewrite unauthorized_other.
Qed.

(** C4, as the code has it.  An authorized [POST /send] whose body is no JSON
    text is answered, and the answer carries an [error] field; but the status
    is 500, with the error [Failed to send message] and the message of the
    [SyntaxError] as [details]: the one [catch] block of the callback takes
    the exception of [JSON.parse] with every other.  The session is not
    called. *)
Theorem malformed_json_gets_500 (req : IncomingMessage) (error : Error) :
  req_method req = "POST" ->
  pathname (req_url req) = Some "/send" ->
  req_authorization req = Some ("Bearer " ++ HTTP_AUTH_TOKEN) ->
  JSON_parse (req_body req) = Rejects error ->
  handler req
  = {| response :=
         {| statusCode := 500;
            res_headers := set cors "Content-Type" "application/json";
            res_body :=
              Some [("error", JString "Failed to send message");
                    ("details", JString (err_message error))] |};
       sent := [];
       logged := [error] |}.
Proof.
  intros Hm Hp Ha Hparse. rewrite handler_send_route by assumption.
  unfold send_route, Gateway.send_route. now rewrite Hparse.
Qed.

(** The recipient given to the session for a string [to]. *)
Lemma phoneNumber_of_string (s : string) :
  Gateway.phoneNumber_of array_toString (Some (JString s))
  = Resolves
      (Some (JString (if JsString.includes s "@c.us" || JsString.includes s "@g.us"
                      then s else s ++ "@c.us"))).
Proof.
  unfold Gateway.phoneNumber_of.
  now destruct (JsString.includes s "@c.us"), (JsString.includes s "@g.us").
Qed.

(** The session is called at most once, and then with the recipient that
    [phoneNumber_of] gives. *)
Lemma send_route_recipient (body : string) (data : json) :
  JSON_parse body = Resolves data ->
  forall recipient c, In (recipient, c) (sent (send_route body)) ->
    Gateway.phoneNumber_of array_toString (prop data "to") = Resolves recipient.
Proof.
  intros Hparse recipient c. unfold send_route, Gateway.send_route.
  rewrite Hparse.
  destruct data; try (simpl; tauto);
    (destruct (negb (truthy _) || negb (truthy _)); [simpl; tauto|];
     destruct (Gateway.phoneNumber_of _ _) as [p|e]; [|simpl; tauto];
     repeat match goal with
            | |- context [if ?b then _ else _] => destruct b
            end;
     try destruct (new_Location _ _ _ _);
     unfold Gateway.send;
     try destruct (sendMessage _ _); simpl;
     intros H; try tauto; destruct H as [H|[]]; congruence).
Qed.

(** C6, as the code has it.  On an authorized [POST /send] whose [to] is a
    string, every call of the session has the recipient [to] itself when
    [to] contains [@c.us] or [@g.us] at any place, and [to] followed by
    [@c.us] otherwise.  With a truthy [message] and the type [text] (or no
    type) the session is called, once, with this recipient and the message. *)
Theorem recipient_is_normalized (req : IncomingMessage) (o : object) (s : string) :
  req_method req = "POST" ->
  pathname (req_url req) = Some "/send" ->
  req_authorization req = Some ("Bearer " ++ HTTP_AUTH_TOKEN) ->
  JSON_parse (req_body req) = Resolves (JObject o) ->
  get o "to" = Some (JString s) ->
  let phoneNumber :=
    Some (JString (if JsString.includes s "@c.us" || JsString.includes s "@g.us"
                   then s else s ++ "@c.us")) in
  (forall recipient c, In (recipient, c) (sent (handler req)) ->
     recipient = phoneNumber)
  /\
  (s <> "" -> truthy (get o "message") = true ->
   get o "type" = None \/ get o "type" = Some (JString "text") ->
   sent (handler req) = [(phoneNumber, Text (get o "message"))]).
Proof.
  intros Hm Hp Ha Hparse Hto phoneNumber.
  rewrite handler_send_route by assumption. split.
  - intros recipient c Hin.
    apply (send_route_recipient _ _ Hparse) in Hin.
    cbn [prop] in Hin. rewrite Hto, phoneNumber_of_string in Hin.
    subst phoneNumber. congruence.
  - intros Hs Hmsg Htype. unfold send_route, Gateway.send_route.
    rewrite Hparse. cbn [prop]. rewrite Hto, Hmsg, phoneNumber_of_string.
    replace (truthy (Some (JString s))) with true
      by (simpl; apply String.eqb_neq in Hs; now rewrite Hs).
    cbn [negb orb].
    assert (Htext :
      is_string match get o "type" with
                | Some j => Some j
                | None => Some (JString "text")
                end "text" = true)
      by (destruct Htype as [-> | ->]; reflexivity).
    rewrite Htext.
    unfold Gateway.send. now destruct (sendMessage _ _).
Qed.

(** Past the test of the required fields, a location without a truthy
    latitude and a truthy longitude is refused. *)
Lemma send_route_location (body : string) (data : json) :
  JSON_parse body = Resolves data ->
  prop data "type" = Some (JString "location") ->
  truthy (prop data "latitude") = false
  \/ truthy (prop data "longitude") = false ->
  sent (send_route body) = []
  /\ (truthy (prop data "to") = true ->
      truthy (prop data "message") = true ->
      (exists p, Gateway.phoneNumber_of array_toString (prop data "to")
                 = Resolves p) ->
      send_route body
      = reply 400 [("error", JString "Location requires latitude and longitude")]).
Proof.
  intros Hparse Htype Hfalsy. unfold send_route, Gateway.send_route.
  rewrite Hparse.
  assert (Hcoord :
    negb (truthy (prop data "latitude")) || negb (truthy (prop data "longitude"))
    = true).
  { destruct Hfalsy as [-> | ->]; [reflexivity | apply orb_true_r]. }
  destruct data; try discriminate Htype.
  rewrite Htype, Hcoord. cbn [is_string String.eqb Ascii.eqb Bool.eqb andb].
  split.
  - destruct (negb (truthy (prop (JObject props) "to"))
              || negb (truthy (prop (JObject props) "message")));
      [reflexivity|].
    now destruct (Gateway.phoneNumber_of _ _).
  - intros -> -> [p ->]. reflexivity.
Qed.

Lemma truthy_string (s : string) : s <> "" -> truthy (Some (JString s)) = true.
Proof. intros H. simpl. apply String.eqb_neq in H. now rewrite H. Qed.

(** C8, as the code has it.  On an authorized [POST /send] of type
    [location] whose body has no [latitude] or no [longitude], the session is
    never called.  The answer is 400 with the body [{error: "Location
    requires latitude and longitude"}] when the request has passed the test
    of the required fields that comes first, that is when [to] is a
    non-empty string and [message] is truthy. *)
Theorem location_without_coordinates (req : IncomingMessage) (data : json) :
  req_method req = "POST" ->
  pathname (req_url req) = Some "/send" ->
  req_authorization req = Some ("Bearer " ++ HTTP_AUTH_TOKEN) ->
  JSON_parse (req_body req) = Resolves data ->
  prop data "type" = Some (JString "location") ->
  prop data "latitude" = None \/ prop data "longitude" = None ->
  sent (handler req) = []
  /\
  (forall s, prop data "to" = Some (JString s) -> s <> "" ->
     truthy (prop data "message") = true ->
     handler req
     = reply 400 [("error", JString "Location requires latitude and longitude")]).
Proof.
  intros Hm Hp Ha Hparse Htype Habsent.
  rewrite handler_send_route by assumption.
  destruct (send_route_location _ _ Hparse Htype) as [Hsent Hreply].
  { destruct Habsent as [-> | ->]; [now left | now right]. }
  split; [assumption|].
  intros s Hto Hs Hmsg. apply Hreply; [| assumption |].
  - rewrite Hto. now apply truthy_string.
  - rewrite Hto, phoneNumber_of_string. now eexists.
Qed.

(** C10, as the code has it.  The handler tests [to], [message], [latitude]
    and [longitude] by their truth value, not by their presence; the empty
    string and the number 0 are falsy.  An authorized [POST /send] whose [to]
    or [message] is falsy, the empty string included, is answered 400 with
    [Missing required fields: to, message].  One of type [location] whose
    [latitude] or [longitude] is falsy, 0 included, is answered 400 with
    [Location requires latitude and longitude] when it has passed that first
    test, [to] being a non-empty string and [message] truthy.  In both cases
    the session is not called. *)
Theorem fields_are_tested_by_truthiness (req : IncomingMessage) (o : object) :
  req_method req = "POST" ->
  pathname (req_url req) = Some "/send" ->
  req_authorization req = Some ("Bearer " ++ HTTP_AUTH_TOKEN) ->
  JSON_parse (req_body req) = Resolves (JObject o) ->
  (truthy (Some (JString "")) = false /\ truthy (Some (JNumber 0%float)) = false)
  /\
  (truthy (get o "to") = false \/ truthy (get o "message") = false ->
   handler req
   = reply 400 [("error", JString "Missing required fields: to, message")])
  /\
  (forall s, get o "to" = Some (JString s) -> s <> "" ->
     truthy (get o "message") = true ->
     get o "type" = Some (JString "location") ->
     truthy (get o "latitude") = false \/ truthy (get o "longitude") = false ->
     handler req
     = reply 400 [("error", JString "Location requires latitude and longitude")]).
Proof.
  intros Hm Hp Ha Hparse.
  rewrite handler_send_route by assumption.
  split; [split; reflexivity|]. split.
  - intros Hfalsy. unfold send_route, Gateway.send_route. rewrite Hparse.
    cbn [prop].
    replace (negb (truthy (get o "to")) || negb (truthy (get o "message")))
      with true; [reflexivity|].
    destruct Hfalsy as [-> | ->]; [reflexivity | symmetry; apply orb_true_r].
  - intros s Hto Hs Hmsg Htype Hfalsy.
    apply (send_route_location _ _ Hparse Htype Hfalsy); cbn [prop].
    + rewrite Hto. now apply truthy_string.
    + assumption.
    + rewrite Hto, phoneNumber_of_string. now eexists.
Qed.

End GatewayFacts.

(** ** The gateway on the sample requests *)

(** A [GET /status] with a wrong token. *)
Lemma unauthorized_witness :
  sample_handler
    {| req_method := "GET";
       req_authorization := Some "Bearer guess";
       req_url := "/status";
       req_body := "" |}
  = reply 401 [("error", JString "Unauthorized")].
Proof.
  apply (unauthorized_requests_get_401 "s3cret" sample_parse sample_pathname
           sample_array_toString sample_Location sample_session true
           "2023-09-11T18:23:20.000Z").
  - simpl. discriminate.
  - simpl. discriminate.
Defined.

(** A [POST /send] with no header at all, and a well-formed body. *)
Example unauthorized_send :
  sample_handler
    {| req_method := "POST";
       req_authorization := None;
       req_url := "/send";
       req_body := json_text "{'to':'15551234567','message':'hello'}" |}
  = reply 401 [("error", JString "Unauthorized")].
Proof. reflexivity. Qed.

(** C4, the claim refuted: the body [{not json] is no JSON text, and the
    request is answered 500, which is no 4xx status. *)
Lemma malformed_json_is_answered_500 :
  (exists error, sample_parse "{not json" = Rejects error)
  /\ statusCode (response (sample_handler (post_send "{not json"))) = 500%Z
  /\ ~ (400 <= statusCode (response (sample_handler (post_send "{not json")))
        <= 499)%Z.
Proof.
  split; [eexists; reflexivity|]. split; [reflexivity|].
  vm_compute. intros [_ H]. now apply H.
Qed.

Lemma malformed_json_witness :
  sample_handler (post_send "{not json")
  = {| response :=
         {| statusCode := 500;
            res_headers := set cors "Content-Type" "application/json";
            res_body :=
              Some [("error", JString "Failed to send message");
                    ("details", JString "Unexpected token in JSON")] |};
       sent := [];
       logged := [{| err_name := "SyntaxError";
                     err_message := "Unexpected token in JSON" |}] |}.
Proof.
  apply (malformed_json_gets_500 "s3cret" sample_parse sample_pathname
           sample_array_toString sample_Location sample_session true
           "2023-09-11T18:23:20.000Z" (post_send "{not json")
           {| err_name := "SyntaxError";
              err_message := "Unexpected token in JSON" |});
    reflexivity.
Defined.

(** C6, the claim refuted: [john@c.usa.com] ends neither in [@c.us] nor in
    [@g.us], and is given to the session as it is, since [@c.us] occurs in
    it. *)
Lemma recipient_without_suffix_is_kept :
  JsString.endsWith "john@c.usa.com" "@c.us" = false
  /\ JsString.endsWith "john@c.usa.com" "@g.us" = false
  /\ sent (sample_handler
             (post_send (json_text "{'to':'john@c.usa.com','message':'hello'}")))
     = [(Some (JString "john@c.usa.com"), Text (Some (JString "hello")))].
Proof. repeat split. Qed.

(** The two recipients of the specification. *)
Lemma recipient_witness :
  sent (sample_handler
          (post_send (json_text "{'to':'15551234567','message':'hello'}")))
  = [(Some (JString "15551234567@c.us"), Text (Some (JString "hello")))].
Proof.
  apply (proj2
           (recipient_is_normalized "s3cret" sample_parse sample_pathname
              sample_array_toString sample_Location sample_session true
              "2023-09-11T18:23:20.000Z"
              (post_send (json_text "{'to':'15551234567','message':'hello'}"))
              [("to", JString "15551234567"); ("message", JString "hello")]
              "15551234567"
              eq_refl eq_refl eq_refl eq_refl eq_refl)).
  - discriminate.
  - reflexivity.
  - left. reflexivity.
Defined.

Example group_recipient_is_kept :
  sent (sample_handler
          (post_send (json_text "{'to':'abc@g.us','message':'hello'}")))
  = [(Some (JString "abc@g.us"), Text (Some (JString "hello")))].
Proof. reflexivity. Qed.

(** C8, the claim refuted: a request of type [location] with no [latitude],
    and no [message] either, is answered with the error of the required
    fields. *)
Lemma location_without_message :
  (exists o,
     sample_parse (json_text "{'to':'15551234567','type':'location'}")
     = Resolves (JObject o)
     /\ get o "type" = Some (JString "location")
     /\ get o "latitude" = None)
  /\ sample_handler
       (post_send (json_text "{'to':'15551234567','type':'location'}"))
     = reply 400 [("error", JString "Missing required fields: to, message")]
  /\ sample_handler
       (post_send (json_text "{'to':'15551234567','type':'location'}"))
     <> reply 400
          [("error", JString "Location requires latitude and longitude")].
Proof.
  split; [eexists; repeat split|]. split; [reflexivity|]. discriminate.
Qed.

Lemma location_witness :
  sample_handler
    (post_send
       (json_text
          "{'to':'15551234567','message':'here','type':'location','longitude':5}"))
  = reply 400 [("error", JString "Location requires latitude and longitude")].
Proof.
  apply (proj2
           (location_without_coordinates "s3cret" sample_parse sample_pathname
              sample_array_toString sample_Location sample_session true
              "2023-09-11T18:23:20.000Z"
              (post_send
                 (json_text
                    "{'to':'15551234567','message':'here','type':'location','longitude':5}"))
              (JObject [("to", JString "15551234567"); ("message", JString "here");
                        ("type", JString "location");
                        ("longitude", JNumber 5%float)])
              eq_refl eq_refl eq_refl eq_refl eq_refl (or_introl eq_refl))
           "15551234567").
  - reflexivity.
  - discriminate.
  - reflexivity.
Defined.

(** C10, the claim refuted: a request of type [location] whose [to] is the
    empty string and whose [latitude] is 0 falls under both halves of the
    claim; it is answered with the error of the required fields, not with
    that of the location. *)
Lemma empty_recipient_comes_first :
  (exists o,
     sample_parse
       (json_text
          "{'to':'','message':'here','type':'location','latitude':0,'longitude':5}")
     = Resolves (JObject o)
     /\ get o "to" = Some (JString "")
     /\ get o "type" = Some (JString "location")
     /\ get o "latitude" = Some (JNumber 0%float))
  /\ sample_handler
       (post_send
          (json_text
             "{'to':'','message':'here','type':'location','latitude':0,'longitude':5}"))
     = reply 400 [("error", JString "Missing required fields: to, message")]
  /\ sample_handler
       (post_send
          (json_text
             "{'to':'','message':'here','type':'location','latitude':0,'longitude':5}"))
     <> reply 400
          [("error", JString "Location requires latitude and longitude")].
Proof.
  split; [eexists; repeat split|]. split; [reflexivity|]. discriminate.
Qed.

Lemma truthiness_witness :
  sample_handler
    (post_send
       (json_text
          "{'to':'15551234567','message':'here','type':'location','latitude':0,'longitude':5}"))
  = reply 400 [("error", JString "Location requires latitude and longitude")]
  /\ sample_handler
       (post_send (json_text "{'to':'15551234567','message':''}"))
     = reply 400 [("error", JString "Missing required fields: to, message")].
Proof.
  split.
  - apply (proj2 (proj2
             (fields_are_tested_by_truthiness "s3cret" sample_parse
                sample_pathname sample_array_toString sample_Location sample_session true
                "2023-09-11T18:23:20.000Z"
                (post_send
                   (json_text
                      "{'to':'15551234567','message':'here','type':'location','latitude':0,'longitude':5}"))
                [("to", JString "15551234567"); ("message", JString "here");
                 ("type", JString "location"); ("latitude", JNumber 0%float);
                 ("longitude", JNumber 5%float)]
                eq_refl eq_refl eq_refl eq_refl))
             "15551234567").
    + reflexivity.
    + discriminate.
    + reflexivity.
    + reflexivity.
    + left. reflexivity.
  - apply (proj1 (proj2
             (fields_are_tested_by_truthiness "s3cret" sample_parse
                sample_pathname sample_array_toString sample_Location sample_session true
                "2023-09-11T18:23:20.000Z"
                (post_send (json_text "{'to':'15551234567','message':''}"))
                [("to", JString "15551234567"); ("message", JString "")]
                eq_refl eq_refl eq_refl eq_refl))).
    right. reflexivity.
Defined.

(** * Further properties *)

(** ** Objects *)

Lemma get_set_same {V : Type} (o : dict V) (k : string) (v : V) :
  get (set o k v) k = Some v.
Proof.
  induction o as [|[k' v'] o IH]; simpl.
  - now rewrite String.eqb_refl.
  - destruct (String.eqb k' k) eqn:E; simpl; rewrite E; [reflexivity | exact IH].
Qed.

Lemma get_set_other {V : Type} (o : dict V) (k k' : string) (v : V) :
  k' <> k -> get (set o k v) k' = get o k'.
Proof.
  intros Hk. induction o as [|[k0 v0] o IH]; simpl.
  - apply String.eqb_neq in Hk. rewrite String.eqb_sym. now rewrite Hk.
  - destruct (String.eqb k0 k) eqn:E; simpl.
    + apply String.eqb_eq in E. subst k0.
      apply String.eqb_neq in Hk. rewrite String.eqb_sym. now rewrite Hk.
    + destruct (String.eqb k0 k'); [reflexivity | exact IH].
Qed.

(** ** Every request of the pipeline *)

Lemma request_of_well_formed (apiConfig : ApiConfig) (payload : object) :
  well_formed_request apiConfig (endpoint apiConfig, request_of apiConfig payload).
Proof.
  unfold well_formed_request, request_of; simpl. repeat split.
  - apply get_set_same.
  - intros k Hk. now apply get_set_other.
Qed.

Lemma requests_app (t1 t2 : list event) :
  requests (t1 ++ t2)%list = (requests t1 ++ requests t2)%list.
Proof.
  induction t1 as [|e t1 IH]; [reflexivity|].
  destruct e; simpl; now rewrite ?IH.
Qed.

(** What holds of the requests of every turn holds of those of the run. *)
Lemma retry_loop_requests (P : string * RequestInit -> Prop) (retryAttempts : Z)
    (turn : Z -> list event * step) :
  (forall a, Forall P (requests (fst (turn a)))) ->
  forall (fuel : nat) (a : Z),
    Forall P (requests (events_of (retry_loop retryAttempts turn fuel a))).
Proof.
  intros H fuel. induction fuel as [|fuel IH]; intros a.
  - simpl. destruct (a <=? retryAttempts)%Z; constructor.
  - cbn [retry_loop]. destruct (a <=? retryAttempts)%Z; [|constructor].
    specialize (H a). specialize (IH (a + 1)%Z).
    destruct (turn a) as [evs [b|]]; [exact H|].
    destruct (retry_loop retryAttempts turn fuel (a + 1)%Z) as [[trace b]|];
      [|constructor].
    simpl in *. rewrite requests_app. apply Forall_app. now split.
Qed.

Lemma Bot_turn_requests (apiConfig : ApiConfig) (now : Z -> string)
    (fetch : Z -> outcome Response) (sender message : string)
    (additionalData : object) (a : Z) :
  requests (fst (Bot.turn apiConfig now fetch sender message additionalData a))
  = [(endpoint apiConfig,
      request_of apiConfig (payload_of sender message (now a) additionalData))].
Proof.
  unfold Bot.turn, Bot.catch_block, Bot.retry_or_stop, when.
  destruct (fetch a) as [r|err]; [destruct (ok r); [|destruct (text r)]|];
    destruct (debug apiConfig), (logErrors apiConfig), (logSuccess apiConfig),
      (a =? retryAttempts apiConfig)%Z; reflexivity.
Qed.

Lemma Example_turn_requests (apiConfig : ApiConfig) (now : Z -> string)
    (fetch : Z -> outcome Response) (sender message : string)
    (additionalData : object) (a : Z) :
  requests (fst (Example.turn apiConfig now fetch sender message additionalData a))
  = [(endpoint apiConfig,
      request_of apiConfig (payload_of sender message (now a) additionalData))].
Proof.
  unfold Example.turn, Example.catch_block, Example.retry_or_stop, when.
  destruct (fetch a) as [r|err]; [destruct (text r); [destruct (ok r)|]|];
    destruct (logErrors apiConfig), (logSuccess apiConfig),
      (a =? retryAttempts apiConfig)%Z; reflexivity.
Qed.

(** Every HTTP call of [forwardMessageToAPI], in both scripts, and the call
    of [testAPIConnection] is a [POST] to the configured endpoint with the
    configured timeout; its [Authorization] header is [Bearer] and the API
    key, also when the configured headers hold an [Authorization] entry of
    their own, and every other configured header is sent as configured. *)
Theorem every_request_is_well_formed
    (apiConfig : ApiConfig) (now : Z -> string) (fetch : Z -> outcome Response)
    (sender message : string) (additionalData : object)
    (iso : string) (answer : outcome Response) :
  Forall (well_formed_request apiConfig)
    (requests
       (events_of
          (Bot.forwardMessageToAPI apiConfig now fetch sender message
             additionalData)))
  /\ Forall (well_formed_request apiConfig)
       (requests
          (events_of
             (Example.forwardMessageToAPI apiConfig now fetch sender message
                additionalData)))
  /\ Forall (well_formed_request apiConfig)
       (requests (testAPIConnection apiConfig iso answer)).
Proof.
  repeat split.
  - apply retry_loop_requests. intros a. rewrite Bot_turn_requests.
    constructor; [apply request_of_well_formed | constructor].
  - apply retry_loop_requests. intros a. rewrite Example_turn_requests.
    constructor; [apply request_of_well_formed | constructor].
  - unfold testAPIConnection.
    destruct answer as [r|e]; [destruct (text r); [destruct (ok r)|]|]; simpl;
      (constructor; [apply request_of_well_formed | constructor]).
Qed.

(** A configured [Authorization] header is written over. *)
Example configured_authorization_is_replaced :
  get (init_headers
         (request_of
            {| enabled := true; endpoint := "https://api.example.com/webhook";
               apiKey := "secret-key";
               headers := [("Authorization", "Basic abc"); ("X-Source", "bot")];
               timeout := 10000; retryAttempts := 3; retryDelay := 1000;
               filters := filters sample_config;
               logSuccess := true; logErrors := true; debug := false |}
            []))
      "Authorization"
  = Some "Bearer secret-key".
Proof. reflexivity. Qed.

(** ** The connection test *)

(** [testAPIConnection] makes one HTTP call and no other, whatever the
    endpoint answers: it does not retry and does not wait.  The body it posts
    is the test payload, whose [timestamp] is the ISO string of the clock. *)
Theorem testAPIConnection_calls_once
    (apiConfig : ApiConfig) (iso : string) (answer : outcome Response) :
  observable (testAPIConnection apiConfig iso answer)
  = [fetch_call (endpoint apiConfig) (request_of apiConfig (testPayload iso))]
  /\ posted (testAPIConnection apiConfig iso answer) = [testPayload iso]
  /\ get (testPayload iso) "timestamp" = Some (JString iso)
  /\ get (testPayload iso) "test" = Some (JBool true).
Proof.
  unfold testAPIConnection.
  destruct answer as [r|e]; [destruct (text r); [destruct (ok r)|]|];
    repeat split.
Qed.

(** ** Every run of the pipeline *)

Section EveryRun.

Variable retryAttempts : Z.
Variable turn : Z -> list event * step.

(** [good k] says that attempt [k] is taken for a success. *)
Variable good : Z -> bool.

Hypothesis turn_good : forall k, good k = true -> snd (turn k) = Return true.
Hypothesis turn_bad :
  forall k, good k = false ->
    snd (turn k) = if (k =? retryAttempts)%Z then Return false else Next.

(** The loop returns [true] exactly when one of the attempts left is taken
    for a success. *)
Lemma retry_loop_true_iff (fuel : nat) :
  forall a, (1 <= a)%Z -> Z.to_nat (retryAttempts + 1 - a) <= fuel ->
    exists trace b,
      retry_loop retryAttempts turn fuel a = Some (trace, b)
      /\ (b = true <-> exists k, (a <= k <= retryAttempts)%Z /\ good k = true).
Proof.
  induction fuel as [|fuel IH]; intros a Ha Hfuel.
  - simpl. replace (a <=? retryAttempts)%Z with false
      by (symmetry; apply Z.leb_gt; lia).
    exists [], false. split; [reflexivity|]. split; [discriminate|].
    intros [k [Hk _]]. lia.
  - cbn [retry_loop]. destruct (a <=? retryAttempts)%Z eqn:E.
    + apply Z.leb_le in E. destruct (good a) eqn:Hg.
      * pose proof (turn_good a Hg) as Hs.
        destruct (turn a) as [evs st]. simpl in Hs. subst st.
        exists evs, true. split; [reflexivity|]. split; [|reflexivity].
        intros _. exists a. split; [lia | assumption].
      * pose proof (turn_bad a Hg) as Hs.
        destruct (turn a) as [evs st]. simpl in Hs. subst st.
        destruct (a =? retryAttempts)%Z eqn:Ea.
        -- apply Z.eqb_eq in Ea. exists evs, false. split; [reflexivity|].
           split; [discriminate|]. intros [k [Hk Hgk]].
           assert (k = a) by lia. congruence.
        -- apply Z.eqb_neq in Ea.
           destruct (IH (a + 1)%Z ltac:(lia) ltac:(lia))
             as (trace & b & -> & Hb).
           exists (evs ++ trace)%list, b. split; [reflexivity|].
           rewrite Hb. split.
           ++ intros [k [Hk Hgk]]. exists k. split; [lia | assumption].
           ++ intros [k [Hk Hgk]]. exists k. split; [|assumption].
              assert (k <> a) by congruence. lia.
    + apply Z.leb_gt in E. exists [], false. split; [reflexivity|].
      split; [discriminate|]. intros [k [Hk _]]. lia.
Qed.

(** Some turn returns, and the turns before it fall through. *)
Lemma retry_loop_stops (n : nat) :
  forall a, (1 <= a <= retryAttempts)%Z -> n = Z.to_nat (retryAttempts - a) ->
    exists k, (a <= k <= retryAttempts)%Z
      /\ (forall j, (a <= j < k)%Z -> snd (turn j) = Next)
      /\ exists b, snd (turn k) = Return b.
Proof.
  induction n as [|n IH]; intros a Ha Hn.
  - assert (a = retryAttempts) by lia. subst a.
    exists retryAttempts. split; [lia|]. split; [intros j Hj; lia|].
    destruct (good retryAttempts) eqn:Hg.
    + exists true. now apply turn_good.
    + exists false. rewrite (turn_bad _ Hg). now rewrite Z.eqb_refl.
  - destruct (good a) eqn:Hg.
    + exists a. split; [lia|]. split; [intros j Hj; lia|].
      exists true. now apply turn_good.
    + destruct (IH (a + 1)%Z ltac:(lia) ltac:(lia)) as (k & Hk & Hbefore & Hret).
      exists k. split; [lia|]. split; [|assumption].
      intros j Hj. destruct (Z.eq_dec j a) as [->|Hja].
      * rewrite (turn_bad _ Hg).
        replace (a =? retryAttempts)%Z with false
          by (symmetry; apply Z.eqb_neq; lia).
        reflexivity.
      * apply Hbefore. lia.
Qed.

End EveryRun.

Lemma Bot_turn_accepted (apiConfig : ApiConfig) (now : Z -> string)
    (fetch : Z -> outcome Response) (sender message : string)
    (additionalData : object) (k : Z) :
  (accepted (fetch k) = true ->
   snd (Bot.turn apiConfig now fetch sender message additionalData k)
   = Return true)
  /\ (accepted (fetch k) = false ->
      snd (Bot.turn apiConfig now fetch sender message additionalData k)
      = if (k =? retryAttempts apiConfig)%Z then Return false else Next).
Proof.
  unfold accepted. split; intros H.
  - apply negb_true_iff in H. unfold failed_attempt in H.
    destruct (fetch k) as [r|e] eqn:E; [|discriminate].
    apply negb_false_iff in H.
    now apply (Bot_turn_ok apiConfig now fetch sender message additionalData k r).
  - apply negb_false_iff in H.
    now apply Bot_turn_failed.
Qed.

Lemma Example_turn_accepted (apiConfig : ApiConfig) (now : Z -> string)
    (fetch : Z -> outcome Response) (sender message : string)
    (additionalData : object) (k : Z) :
  (accepted_and_read (fetch k) = true ->
   snd (Example.turn apiConfig now fetch sender message additionalData k)
   = Return true)
  /\ (accepted_and_read (fetch k) = false ->
      snd (Example.turn apiConfig now fetch sender message additionalData k)
      = if (k =? retryAttempts apiConfig)%Z then Return false else Next).
Proof.
  unfold accepted_and_read, Example.turn, Example.catch_block,
    Example.retry_or_stop.
  split; intros H;
    (destruct (fetch k) as [r|e]; [destruct (text r); destruct (ok r)|];
     try discriminate H;
     destruct (k =? retryAttempts apiConfig)%Z; reflexivity).
Qed.

(** What a turn shows, by the way it ends. *)
Lemma Bot_turn_shows (apiConfig : ApiConfig) (now : Z -> string)
    (fetch : Z -> outcome Response) (sender message : string)
    (additionalData : object) (k : Z) :
  let turn := Bot.turn apiConfig now fetch sender message additionalData in
  let call := call_of apiConfig now sender message additionalData in
  (snd (turn k) = Next ->
   observable (fst (turn k)) = [call k; setTimeout (retryDelay apiConfig)])
  /\ (forall b, snd (turn k) = Return b -> observable (fst (turn k)) = [call k]).
Proof.
  unfold Bot.turn, Bot.catch_block, Bot.retry_or_stop, when, call_of.
  cbv zeta.
  destruct (fetch k) as [r|e]; [destruct (ok r); [|destruct (text r)]|];
    destruct (debug apiConfig), (logErrors apiConfig), (logSuccess apiConfig),
      (k =? retryAttempts apiConfig)%Z;
    split; try discriminate; try (intros b); try discriminate; reflexivity.
Qed.

Lemma Example_turn_shows (apiConfig : ApiConfig) (now : Z -> string)
    (fetch : Z -> outcome Response) (sender message : string)
    (additionalData : object) (k : Z) :
  let turn := Example.turn apiConfig now fetch sender message additionalData in
  let call := call_of apiConfig now sender message additionalData in
  (snd (turn k) = Next ->
   observable (fst (turn k)) = [call k; setTimeout (retryDelay apiConfig)])
  /\ (forall b, snd (turn k) = Return b -> observable (fst (turn k)) = [call k]).
Proof.
  unfold Example.turn, Example.catch_block, Example.retry_or_stop, when, call_of.
  cbv zeta.
  destruct (fetch k) as [r|e]; [destruct (text r); [destruct (ok r)|]|];
    destruct (logErrors apiConfig), (logSuccess apiConfig),
      (k =? retryAttempts apiConfig)%Z;
    split; try discriminate; try (intros b); try discriminate; reflexivity.
Qed.

(** [forwardMessageToAPI] returns [true] exactly when one of the attempts 1
    to [retryAttempts] is taken for a success: in the server script an
    attempt answered with a 2xx status, in [example.js] one answered with a
    2xx status whose body could be read. *)
Theorem delivery_returns_true_iff_accepted
    (apiConfig : ApiConfig) (now : Z -> string) (fetch : Z -> outcome Response)
    (sender message : string) (additionalData : object) :
  (exists trace b,
     Bot.forwardMessageToAPI apiConfig now fetch sender message additionalData
     = Some (trace, b)
     /\ (b = true
         <-> exists k, (1 <= k <= retryAttempts apiConfig)%Z
                       /\ accepted (fetch k) = true))
  /\
  (exists trace b,
     Example.forwardMessageToAPI apiConfig now fetch sender message
       additionalData
     = Some (trace, b)
     /\ (b = true
         <-> exists k, (1 <= k <= retryAttempts apiConfig)%Z
                       /\ accepted_and_read (fetch k) = true)).
Proof.
  split.
  - apply (retry_loop_true_iff (retryAttempts apiConfig) _
             (fun k => accepted (fetch k))); try lia;
      intros k; apply Bot_turn_accepted.
  - apply (retry_loop_true_iff (retryAttempts apiConfig) _
             (fun k => accepted_and_read (fetch k))); try lia;
      intros k; apply Example_turn_accepted.
Qed.

Lemma run_stops_at (apiConfig : ApiConfig) (now : Z -> string)
    (sender message : string) (additionalData : object)
    (turn : Z -> list event * step) (good : Z -> bool) :
  (forall k, good k = true -> snd (turn k) = Return true) ->
  (forall k, good k = false ->
     snd (turn k)
     = if (k =? retryAttempts apiConfig)%Z then Return false else Next) ->
  (forall k,
     (snd (turn k) = Next ->
      observable (fst (turn k))
      = [call_of apiConfig now sender message additionalData k;
         setTimeout (retryDelay apiConfig)])
     /\ (forall b, snd (turn k) = Return b ->
         observable (fst (turn k))
         = [call_of apiConfig now sender message additionalData k])) ->
  (1 <= retryAttempts apiConfig)%Z ->
  exists k b,
    (1 <= k <= retryAttempts apiConfig)%Z
    /\ stops_at good (retryAttempts apiConfig) k b
    /\ ends_after (Z.to_nat k) b (retryDelay apiConfig)
         (call_of apiConfig now sender message additionalData)
         (retry_loop (retryAttempts apiConfig) turn
            (Z.to_nat (retryAttempts apiConfig)) 1%Z).
Proof.
  intros Hgood Hbad Hshows HN.
  destruct (retry_loop_stops (retryAttempts apiConfig) turn good Hgood Hbad
              _ 1%Z ltac:(lia) eq_refl) as (k & Hk & Hbefore & b & Hret).
  exists k, b. split; [assumption|]. split; [repeat split|].
  - intros j Hj. destruct (good j) eqn:Hg; [|reflexivity].
    specialize (Hbefore j Hj). rewrite (Hgood j Hg) in Hbefore. discriminate.
  - intros ->. destruct (good k) eqn:Hg; [reflexivity|].
    rewrite (Hbad k Hg) in Hret.
    destruct (k =? retryAttempts apiConfig)%Z; discriminate.
  - intros Hg. rewrite (Hgood k Hg) in Hret. congruence.
  - intros ->. destruct (good k) eqn:Hg.
    + rewrite (Hgood k Hg) in Hret. discriminate.
    + rewrite (Hbad k Hg) in Hret.
      destruct (k =? retryAttempts apiConfig)%Z eqn:E; [|discriminate].
      now apply Z.eqb_eq in E.
  - apply run_ends_after; [assumption | |].
    + intros j Hj. split; [|now apply Hbefore].
      apply (proj1 (Hshows j)). now apply Hbefore.
    + split; [|assumption]. now apply (proj2 (Hshows k)) with b.
Qed.

(** With [retryAttempts = N >= 1], whatever the endpoint answers, a run of
    [forwardMessageToAPI] stops at some attempt [k] between 1 and [N]: it has
    made exactly [k] calls, with a wait of [retryDelay] between every two of
    them and no wait after the last.  Either attempt [k] is the first that is
    taken for a success and the result is [true], or no attempt is, [k] is
    [N] and the result is [false]. *)
Theorem delivery_stops_at_first_success
    (apiConfig : ApiConfig) (now : Z -> string) (fetch : Z -> outcome Response)
    (sender message : string) (additionalData : object) :
  (1 <= retryAttempts apiConfig)%Z ->
  (exists k b,
     (1 <= k <= retryAttempts apiConfig)%Z
     /\ stops_at (fun j => accepted (fetch j)) (retryAttempts apiConfig) k b
     /\ ends_after (Z.to_nat k) b (retryDelay apiConfig)
          (call_of apiConfig now sender message additionalData)
          (Bot.forwardMessageToAPI apiConfig now fetch sender message
             additionalData))
  /\
  (exists k b,
     (1 <= k <= retryAttempts apiConfig)%Z
     /\ stops_at (fun j => accepted_and_read (fetch j))
          (retryAttempts apiConfig) k b
     /\ ends_after (Z.to_nat k) b (retryDelay apiConfig)
          (call_of apiConfig now sender message additionalData)
          (Example.forwardMessageToAPI apiConfig now fetch sender message
             additionalData)).
Proof.
  intros HN. split.
  - apply (run_stops_at apiConfig now sender message additionalData
             (Bot.turn apiConfig now fetch sender message additionalData)
             (fun j => accepted (fetch j))); try assumption;
      intros j; try apply Bot_turn_accepted. apply Bot_turn_shows.
  - apply (run_stops_at apiConfig now sender message additionalData
             (Example.turn apiConfig now fetch sender message additionalData)
             (fun j => accepted_and_read (fetch j))); try assumption;
      intros j; try apply Example_turn_accepted. apply Example_turn_shows.
Qed.

Lemma delivery_stops_witness :
  (exists k b,
     (1 <= k <= 3)%Z
     /\ stops_at (fun j => accepted (recovering j)) 3 k b
     /\ ends_after (Z.to_nat k) b 1000
          (call_of sample_config sample_clock "15551234567@c.us"
             "Please HELP me" (additionalData_of sample_msg sample_chat))
          (Bot.forwardMessageToAPI sample_config sample_clock recovering
             "15551234567@c.us" "Please HELP me"
             (additionalData_of sample_msg sample_chat)))
  /\
  (exists k b,
     (1 <= k <= 3)%Z
     /\ stops_at (fun j => accepted_and_read (recovering j)) 3 k b
     /\ ends_after (Z.to_nat k) b 1000
          (call_of sample_config sample_clock "15551234567@c.us"
             "Please HELP me" (additionalData_of sample_msg sample_chat))
          (Example.forwardMessageToAPI sample_config sample_clock recovering
             "15551234567@c.us" "Please HELP me"
             (additionalData_of sample_msg sample_chat))).
Proof.
  apply (delivery_stops_at_first_success sample_config sample_clock recovering).
  simpl. lia.
Defined.

(** With [retryAttempts] zero or negative the loop is not entered:
    [forwardMessageToAPI] returns [false] without a single call, whatever the
    endpoint would have answered. *)
Theorem no_attempt_without_retryAttempts
    (apiConfig : ApiConfig) (now : Z -> string) (fetch : Z -> outcome Response)
    (sender message : string) (additionalData : object) :
  (retryAttempts apiConfig <= 0)%Z ->
  Bot.forwardMessageToAPI apiConfig now fetch sender message additionalData
  = Some ([], false)
  /\ Example.forwardMessageToAPI apiConfig now fetch sender message
       additionalData
     = Some ([], false).
Proof.
  intros HN. unfold Bot.forwardMessageToAPI, Example.forwardMessageToAPI.
  replace (Z.to_nat (retryAttempts apiConfig)) with O by lia. simpl.
  replace (1 <=? retryAttempts apiConfig)%Z with false
    by (symmetry; apply Z.leb_gt; lia).
  now split.
Qed.

Lemma no_attempt_witness :
  Bot.forwardMessageToAPI
    {| enabled := true;
       endpoint := "https://api.example.com/webhook";
       apiKey := "secret-key";
       headers := [];
       timeout := 10000;
       retryAttempts := 0;
       retryDelay := 1000;
       filters := filters sample_config;
       logSuccess := true;
       logErrors := true;
       debug := true |}
    sample_clock recovering "15551234567@c.us" "hello" []
  = Some ([], false)
  /\ Example.forwardMessageToAPI
       {| enabled := true;
          endpoint := "https://api.example.com/webhook";
          apiKey := "secret-key";
          headers := [];
          timeout := 10000;
          retryAttempts := 0;
          retryDelay := 1000;
          filters := filters sample_config;
          logSuccess := true;
          logErrors := true;
          debug := true |}
       sample_clock recovering "15551234567@c.us" "hello" []
     = Some ([], false).
Proof.
  apply no_attempt_without_retryAttempts. simpl. lia.
Defined.

(** ** The [message] handler *)

Section MessageFacts.

Variable toLowerCase : string -> string.
Variable apiConfig : ApiConfig.
Variable now : Z -> string.
Variable fetch : Z -> outcome Response.
Variable toISOString : float -> string.

Let onMessage : Message -> outcome Chat -> option (list event * settled) :=
  Handlers.onMessage toLowerCase apiConfig now fetch toISOString.

(** The handler makes no HTTP call and does not wait for a message that the
    filter turns down, nor when the chat of the message cannot be fetched. *)
Theorem filtered_message_is_not_posted (msg : Message) (chat : outcome Chat) :
  (forall chat', chat = Resolves chat' ->
     shouldForwardMessage toLowerCase apiConfig (msg_from msg) (msg_body msg)
       (additionalData_of msg chat')
     = false) ->
  exists trace s,
    onMessage msg chat = Some (trace, s) /\ observable trace = [].
Proof.
  intros H. unfold onMessage, Handlers.onMessage. cbv zeta.
  destruct (debug apiConfig && negb (valid_time _)) eqn:Ht.
  - now eexists _, _.
  - destruct chat as [chat'|error].
    + rewrite (H chat' eq_refl). eexists _, _. split; [reflexivity|].
      now destruct (debug apiConfig).
    + eexists _, _. split; [reflexivity|]. now destruct (debug apiConfig).
Qed.

(** What the filter makes of the fields of the message: with the relay
    disabled, for a message of the account itself under [skipOwnMessages],
    and for a message of a group chat under [skipGroupMessages], it says no. *)
Lemma shouldForwardMessage_of_message (msg : Message) (chat : Chat)
    (sender message : string) :
  enabled apiConfig = false
  \/ (skipOwnMessages (filters apiConfig) = true /\ msg_fromMe msg = true)
  \/ (skipGroupMessages (filters apiConfig) = true /\ chat_isGroup chat = true) ->
  shouldForwardMessage toLowerCase apiConfig sender message
    (additionalData_of msg chat)
  = false.
Proof.
  unfold shouldForwardMessage, additionalData_of. cbv zeta.
  intros [H | [[H1 H2] | [H1 H2]]].
  - now rewrite H.
  - destruct (enabled apiConfig); [|reflexivity]. simpl. now rewrite H1, H2.
  - destruct (enabled apiConfig); [|reflexivity]. simpl. rewrite H1, H2.
    now destruct (skipOwnMessages (filters apiConfig) && msg_fromMe msg).
Qed.

(** With the relay disabled nothing is ever posted; under [skipOwnMessages]
    no message of the account itself is, and under [skipGroupMessages] no
    message of a group chat: for such a message the handler makes no HTTP
    call, whatever the sender, the text and the other filters are. *)
Theorem skipped_messages_are_not_posted (msg : Message) (chat : Chat) :
  enabled apiConfig = false
  \/ (skipOwnMessages (filters apiConfig) = true /\ msg_fromMe msg = true)
  \/ (skipGroupMessages (filters apiConfig) = true /\ chat_isGroup chat = true) ->
  exists trace s,
    onMessage msg (Resolves chat) = Some (trace, s) /\ observable trace = [].
Proof.
  intros H. apply filtered_message_is_not_posted.
  intros chat' E. injection E as <-.
  now apply shouldForwardMessage_of_message.
Qed.

(** A message that passes the filter is handed to [forwardMessageToAPI] with
    the sender, the text and the metadata of the message; the handler makes
    the calls and the waits of that run and no other, and ends without an
    error whether the delivery succeeded or not. *)
Theorem passing_message_is_forwarded (msg : Message) (chat : Chat) :
  debug apiConfig = false
  \/ valid_time (PrimFloat.mul (msg_timestamp msg) 1000%float) = true ->
  shouldForwardMessage toLowerCase apiConfig (msg_from msg) (msg_body msg)
    (additionalData_of msg chat)
  = true ->
  exists run b trace,
    Bot.forwardMessageToAPI apiConfig now fetch (msg_from msg) (msg_body msg)
      (additionalData_of msg chat)
    = Some (run, b)
    /\ onMessage msg (Resolves chat) = Some (trace, Fulfilled)
    /\ observable trace = observable run.
Proof.
  intros Htime Hpass.
  destruct (proj1 (forwardMessageToAPI_returns apiConfig now fetch
                     (msg_from msg) (msg_body msg)
                     (additionalData_of msg chat))) as [[run b] Hrun].
  exists run, b. unfold onMessage, Handlers.onMessage. cbv zeta.
  replace (debug apiConfig && negb (valid_time _)) with false.
  - rewrite Hpass, Hrun. eexists. split; [reflexivity|]. split; [reflexivity|].
    now destruct (debug apiConfig).
  - destruct Htime as [-> | ->]; [reflexivity | now rewrite andb_false_r].
Qed.

End MessageFacts.

(** In debug mode the handler prints the time of the message as an ISO
    string before it does anything else.  For a message whose time is not a
    valid date this throws: the handler prints one line and ends with a
    [RangeError], and the message is not forwarded, although the same message
    is forwarded when [debug] is off (if it passes the filter, which does not
    look at [debug]). *)
Theorem debug_drops_message_with_invalid_time
    (toLowerCase : string -> string) (apiConfig : ApiConfig) (now : Z -> string)
    (fetch : Z -> outcome Response) (toISOString : float -> string)
    (msg : Message) (chat : Chat) (success errors : bool) :
  valid_time (PrimFloat.mul (msg_timestamp msg) 1000%float) = false ->
  shouldForwardMessage toLowerCase apiConfig (msg_from msg) (msg_body msg)
    (additionalData_of msg chat)
  = true ->
  Handlers.onMessage toLowerCase (with_flags apiConfig success errors true) now
    fetch toISOString msg (Resolves chat)
  = Some ([console_log "MESSAGE RECEIVED" []],
          Rejected (RangeError "Invalid time value"))
  /\
  exists run b trace,
    Bot.forwardMessageToAPI (with_flags apiConfig success errors false) now
      fetch (msg_from msg) (msg_body msg) (additionalData_of msg chat)
    = Some (run, b)
    /\ Handlers.onMessage toLowerCase (with_flags apiConfig success errors false)
         now fetch toISOString msg (Resolves chat)
       = Some (trace, Fulfilled)
    /\ observable trace = observable run.
Proof.
  intros Htime Hpass. split.
  - unfold Handlers.onMessage. cbn [with_flags debug]. now rewrite Htime.
  - apply passing_message_is_forwarded; [now left | exact Hpass].
Qed.

(** The sample message with other texts and times. *)
Lemma filtered_message_witness :
  exists trace s,
    Handlers.onMessage JsString.toLowerCase sample_config sample_clock recovering
      (fun _ => "2023-09-11T18:22:18.000Z")
      {| msg_id_serialized := "false_15551234567@c.us_3EB1";
         msg_from := "15551234567@c.us";
         msg_body := "good morning";
         msg_type := "chat";
         msg_hasMedia := false;
         msg_timestamp := 1694456538%float;
         msg_fromMe := false |}
      (Resolves sample_chat)
    = Some (trace, s)
    /\ observable trace = [].
Proof.
  apply filtered_message_is_not_posted.
  intros chat' E. injection E as <-. reflexivity.
Defined.

Lemma skipped_message_witness :
  exists trace s,
    Handlers.onMessage JsString.toLowerCase sample_config sample_clock recovering
      (fun _ => "2023-09-11T18:22:18.000Z")
      {| msg_id_serialized := "true_15551234567@c.us_3EB2";
         msg_from := "15551234567@c.us";
         msg_body := "I need help";
         msg_type := "chat";
         msg_hasMedia := false;
         msg_timestamp := 1694456538%float;
         msg_fromMe := true |}
      (Resolves sample_chat)
    = Some (trace, s)
    /\ observable trace = [].
Proof.
  apply skipped_messages_are_not_posted.
  right. left. split; reflexivity.
Defined.

Lemma passing_message_witness :
  exists run b trace,
    Bot.forwardMessageToAPI sample_config sample_clock recovering
      (msg_from sample_msg) (msg_body sample_msg)
      (additionalData_of sample_msg sample_chat)
    = Some (run, b)
    /\ Handlers.onMessage JsString.toLowerCase sample_config sample_clock
         recovering (fun _ => "2023-09-11T18:22:18.000Z") sample_msg
         (Resolves sample_chat)
       = Some (trace, Fulfilled)
    /\ observable trace = observable run.
Proof.
  apply passing_message_is_forwarded.
  - left. reflexivity.
  - reflexivity.
Defined.

(** A message dated 9e15 seconds after the epoch: the time in milliseconds
    is past the last valid date. *)
Lemma invalid_time_witness :
  Handlers.onMessage JsString.toLowerCase
    (with_flags sample_config true true true) sample_clock recovering
    (fun _ => "") 
    {| msg_id_serialized := "false_15551234567@c.us_3EB3";
       msg_from := "15551234567@c.us";
       msg_body := "help";
       msg_type := "chat";
       msg_hasMedia := false;
       msg_timestamp := 9000000000000000%float;
       msg_fromMe := false |}
    (Resolves sample_chat)
  = Some ([console_log "MESSAGE RECEIVED" []],
          Rejected (RangeError "Invalid time value"))
  /\
  exists run b trace,
    Bot.forwardMessageToAPI (with_flags sample_config true true false)
      sample_clock recovering "15551234567@c.us" "help"
      (additionalData_of
         {| msg_id_serialized := "false_15551234567@c.us_3EB3";
            msg_from := "15551234567@c.us";
            msg_body := "help";
            msg_type := "chat";
            msg_hasMedia := false;
            msg_timestamp := 9000000000000000%float;
            msg_fromMe := false |}
         sample_chat)
    = Some (run, b)
    /\ Handlers.onMessage JsString.toLowerCase
         (with_flags sample_config true true false) sample_clock recovering
         (fun _ => "")
         {| msg_id_serialized := "false_15551234567@c.us_3EB3";
            msg_from := "15551234567@c.us";
            msg_body := "help";
            msg_type := "chat";
            msg_hasMedia := false;
            msg_timestamp := 9000000000000000%float;
            msg_fromMe := false |}
         (Resolves sample_chat)
       = Some (trace, Fulfilled)
    /\ observable trace = observable run.
Proof.
  apply (debug_drops_message_with_invalid_time JsString.toLowerCase
           sample_config sample_clock recovering (fun _ => "")
           {| msg_id_serialized := "false_15551234567@c.us_3EB3";
              msg_from := "15551234567@c.us";
              msg_body := "help";
              msg_type := "chat";
              msg_hasMedia := false;
              msg_timestamp := 9000000000000000%float;
              msg_fromMe := false |}
           sample_chat true true).
  - reflexivity.
  - reflexivity.
Defined.

(** ** The [qr] handler *)

Lemma onQrs_printed (qrs : list string) :
  forall st,
    Handlers.printed (fst (Handlers.onQrs st qrs))
    = (if Handlers.qrCodeShown st then [] else firstn 1 qrs)
    /\ existsb Handlers.is_pairing_request (fst (Handlers.onQrs st qrs)) = false.
Proof.
  induction qrs as [|qr rest IH]; intros st.
  - simpl. split; [now destruct (Handlers.qrCodeShown st) | reflexivity].
  - cbn [Handlers.onQrs].
    destruct (Handlers.onQr st qr) as [evs st'] eqn:E.
    destruct (IH st') as (IHp & IHr).
    destruct (Handlers.onQrs st' rest) as [evs' st''].
    unfold Handlers.onQr in E. destruct st as [shown requested].
    simpl in E. injection E as <- <-.
    destruct shown; simpl in *; rewrite ?IHp; now split.
Qed.

(** Over the [qr] events of a session, the handler prints the first code and
    no later one (a later code is only announced by the line that says a
    code was received), and it never asks for a pairing code. *)
Theorem only_first_qr_code_is_printed (qrs : list string) :
  Handlers.printed (fst (Handlers.onQrs Handlers.qr_initial qrs)) = firstn 1 qrs
  /\ existsb Handlers.is_pairing_request
       (fst (Handlers.onQrs Handlers.qr_initial qrs))
     = false.
Proof.
  apply (onQrs_printed qrs Handlers.qr_initial).
Qed.

Example second_qr_code_is_not_printed :
  Handlers.printed (fst (Handlers.onQrs Handlers.qr_initial ["2@AbC"; "2@dEf"; "2@GhI"]))
  = ["2@AbC"].
Proof. reflexivity. Qed.

(** ** The [call] handler *)

Lemma string_append_assoc (a b c : string) : ((a ++ b) ++ c = a ++ (b ++ c))%string.
Proof. induction a as [|x a IH]; simpl; [reflexivity | now rewrite IH]. Qed.

(** The handler rejects every call.  It sends one notice, to the caller, and
    only once the call has been rejected: when [call.reject()] fails, nothing
    is sent and the handler ends with that error.  The notice names the
    caller and says that the call was rejected. *)
Theorem call_is_rejected_before_notice
    (call : Handlers.Call) (rejected sending : outcome unit) :
  let trace := fst (Handlers.onCall call rejected sending) in
  In Handlers.call_reject trace
  /\ (forall to text, In (Handlers.call_sendMessage to text) trace ->
        (exists u, rejected = Resolves u)
        /\ to = Handlers.call_from call
        /\ text = Handlers.call_notice call)
  /\ (forall error, rejected = Rejects error ->
        Handlers.onCall call rejected sending
        = ([Handlers.call_log; Handlers.call_reject], Rejected error))
  /\ (forall u, rejected = Resolves u ->
        trace
        = [Handlers.call_log; Handlers.call_reject;
           Handlers.call_sendMessage (Handlers.call_from call)
             (Handlers.call_notice call)])
  /\ JsString.substring_of (Handlers.call_from call) (Handlers.call_notice call)
  /\ JsString.substring_of "This call was automatically rejected by the script."
       (Handlers.call_notice call).
Proof.
  cbv zeta. unfold Handlers.onCall, Handlers.rejectCalls.
  repeat split.
  - destruct rejected, sending; simpl; tauto.
  - destruct rejected; [now eexists|].
    simpl in H. destruct H as [H|[H|[]]]; discriminate.
  - destruct rejected, sending; simpl in H;
      repeat (destruct H as [H|H]; try discriminate; try contradiction);
      congruence.
  - destruct rejected, sending; simpl in H;
      repeat (destruct H as [H|H]; try discriminate; try contradiction);
      congruence.
  - intros error ->. reflexivity.
  - intros u ->. now destruct sending.
  - unfold Handlers.call_notice.
    exists ("[" ++ (if Handlers.call_fromMe call then "Outgoing" else "Incoming")
            ++ "] Phone call from ")%string.
    eexists. destruct (Handlers.call_fromMe call); reflexivity.
  - unfold Handlers.call_notice, Handlers.rejectCalls.
    exists ("[" ++ (if Handlers.call_fromMe call then "Outgoing" else "Incoming")
            ++ "] Phone call from " ++ Handlers.call_from call
            ++ ", type " ++ (if Handlers.call_isGroup call then "group" else "")
            ++ " " ++ (if Handlers.call_isVideo call then "video" else "audio")
            ++ " call. ")%string, "".
    destruct (Handlers.call_fromMe call), (Handlers.call_isGroup call),
      (Handlers.call_isVideo call); simpl;
      rewrite string_append_assoc; reflexivity.
Qed.

(** ** Starting the client *)



Example binding_conflict_is_retried_once :
  Handlers.exits
    (Handlers.initializeWhatsApp
       (Rejects {| err_name := "Error";
                   err_message := "Execution context: binding already exists" |})
       (Resolves tt))
  = []
  /\ Handlers.exits
       (Handlers.initializeWhatsApp
          (Rejects {| err_name := "Error";
                      err_message := "Failed to launch the browser process" |})
          (Resolves tt))
     = [1%Z].
Proof. split; reflexivity. Qed.

(** ** Every response of the gateway *)

Section EveryResponse.

Variable HTTP_AUTH_TOKEN : string.
Variable JSON_parse : string -> outcome json.
Variable pathname : string -> option string.
Variable array_toString : list json -> string.
Variable new_Location : value -> value -> value -> value -> outcome content.
Variable sendMessage : value -> content -> outcome Receipt.
Variable client_info : bool.
Variable now : string.

Let handler : IncomingMessage -> Handled :=
  Gateway.handler HTTP_AUTH_TOKEN JSON_parse pathname array_toString
    new_Location sendMessage client_info now.

Let send_route : string -> Handled :=
  Gateway.send_route JSON_parse array_toString new_Location sendMessage.

(** The three kinds of answers of the [end] callback. *)
Inductive answer_kind (h : Handled) : Prop :=
| sent_ok (body : object) (call : value * content) :
    h = {| response := json_response 200 body; sent := [call]; logged := [] |} ->
    get body "success" = Some (JBool true) ->
    answer_kind h
| refused (message : string) :
    h = reply 400 [("error", JString message)] ->
    answer_kind h
| threw (error : Error) (calls : list (value * content)) :
    h = {| response :=
             json_response 500
               [("error", JString "Failed to send message");
                ("details", JString (err_message error))];
           sent := calls;
           logged := [error] |} ->
    List.length calls <= 1 ->
    answer_kind h.

Lemma send_answer_kind (phoneNumber : value) (c : content) :
  answer_kind (Gateway.send sendMessage phoneNumber c).
Proof.
  unfold Gateway.send. destruct (sendMessage phoneNumber c) as [result|error].
  - eapply sent_ok; reflexivity.
  - eapply threw; [reflexivity | simpl; lia].
Qed.

Lemma send_route_answer_kind (body : string) : answer_kind (send_route body).
Proof.
  unfold send_route, Gateway.send_route.
  destruct (JSON_parse body) as [data|error];
    [|eapply threw; [reflexivity | simpl; lia]].
  destruct data;
    try (eapply threw; [reflexivity | simpl; lia]);
    try (eapply refused; reflexivity);
    (destruct (negb (truthy _) || negb (truthy _));
       [eapply refused; reflexivity|];
     destruct (Gateway.phoneNumber_of _ _) as [p|e];
       [|eapply threw; [reflexivity | simpl; lia]];
     destruct (is_string _ "text"); [apply send_answer_kind|];
     destruct (is_string _ "location"); [|eapply refused; reflexivity];
     destruct (negb (truthy _) || negb (truthy _));
       [eapply refused; reflexivity|];
     destruct (new_Location _ _ _ _) as [location|e];
       [apply send_answer_kind | eapply threw; [reflexivity | simpl; lia]]).
Qed.

Lemma unauthorized_false (authHeader : option string) :
  Gateway.unauthorized HTTP_AUTH_TOKEN authHeader = false ->
  authHeader = Some ("Bearer " ++ HTTP_AUTH_TOKEN).
Proof.
  unfold Gateway.unauthorized. destruct authHeader as [h|]; [|discriminate].
  intros H. apply orb_false_iff in H. destruct H as [_ H].
  apply negb_false_iff, String.eqb_eq in H. now subst.
Qed.

(** What the handler answers, by the way the request is taken. *)
Lemma handler_cases (req : IncomingMessage) :
  handler req
  = {| response := {| statusCode := 200; res_headers := cors; res_body := None |};
       sent := []; logged := [] |}
  \/ handler req = reply 401 [("error", JString "Unauthorized")]
  \/ handler req = reply 404 [("error", JString "Not found")]
  \/ (exists body, handler req = reply 200 body
                   /\ get body "status" = Some (JString "running"))
  \/ (req_method req = "POST"
      /\ pathname (req_url req) = Some "/send"
      /\ req_authorization req = Some ("Bearer " ++ HTTP_AUTH_TOKEN)
      /\ handler req = send_route (req_body req)).
Proof.
  unfold handler, Gateway.handler.
  destruct (String.eqb (req_method req) "OPTIONS"); [now left|].
  destruct (Gateway.unauthorized _ _) eqn:Ha; [now right; left|].
  apply unauthorized_false in Ha.
  destruct (String.eqb_spec (req_method req) "POST") as [Hm|_]; simpl.
  - destruct (pathname (req_url req)) as [p|] eqn:Hp.
    + destruct (String.eqb_spec p "/send") as [->|_].
      * right; right; right; right. now rewrite Hm.
      * rewrite Hm. simpl. now right; right; left.
    + rewrite Hm. simpl. now right; right; left.
  - destruct (String.eqb (req_method req) "GET"
              && match pathname (req_url req) with
                 | Some p => String.eqb p "/status"
                 | None => false
                 end).
    + right; right; right; left. eexists. split; reflexivity.
    + now right; right; left.
Qed.

(** Every response carries the three CORS headers: any origin, the methods
    GET, POST and OPTIONS, the headers [Content-Type] and [Authorization];
    this holds of the error responses and of the 401 too. *)
Theorem every_response_carries_cors (req : IncomingMessage) :
  get (res_headers (response (handler req))) "Access-Control-Allow-Origin"
  = Some "*"
  /\ get (res_headers (response (handler req))) "Access-Control-Allow-Methods"
     = Some "GET, POST, OPTIONS"
  /\ get (res_headers (response (handler req))) "Access-Control-Allow-Headers"
     = Some "Content-Type, Authorization".
Proof.
  destruct (handler_cases req)
    as [-> | [-> | [-> | [(body & -> & _) | (_ & _ & _ & ->)]]]];
    try (repeat split; reflexivity).
  destruct (send_route_answer_kind (req_body req)) as [? ? -> _ | ? -> | ? ? -> _];
    repeat split; reflexivity.
Qed.

(** The session is called at most once per request, and only for a
    [POST /send] that carries the token: no other request, and no request
    without the token, reaches [client.sendMessage]. *)
Theorem session_is_called_only_by_authorized_send (req : IncomingMessage) :
  List.length (sent (handler req)) <= 1
  /\ (sent (handler req) <> [] ->
      req_method req = "POST"
      /\ pathname (req_url req) = Some "/send"
      /\ req_authorization req = Some ("Bearer " ++ HTTP_AUTH_TOKEN)).
Proof.
  destruct (handler_cases req)
    as [-> | [-> | [-> | [(body & -> & _) | (Hm & Hp & Ha & ->)]]]];
    try (split; [simpl; lia | intros H; now contradiction H]).
  split; [|now intros _].
  destruct (send_route_answer_kind (req_body req)) as [? ? -> _ | ? -> | ? ? -> ?];
    simpl; lia.
Qed.

(** The status of a response is 200, 400, 401, 404 or 500.  A response other
    than 200 has a JSON body with a string under [error].  An error is
    written to the console exactly when the status is 500. *)
Theorem failure_responses_carry_error (req : IncomingMessage) :
  let r := response (handler req) in
  In (statusCode r) [200; 400; 401; 404; 500]%Z
  /\ (statusCode r <> 200%Z ->
      exists body message,
        res_body r = Some body /\ get body "error" = Some (JString message))
  /\ (logged (handler req) <> [] <-> statusCode r = 500%Z).
Proof.
  cbv zeta.
  destruct (handler_cases req)
    as [-> | [-> | [-> | [(body & -> & _) | (_ & _ & _ & ->)]]]].
  - simpl. split; [tauto|]. split; [congruence|]. split; [congruence | discriminate].
  - simpl. split; [tauto|]. split; [now eexists _, _|].
    split; [congruence | discriminate].
  - simpl. split; [tauto|]. split; [now eexists _, _|].
    split; [congruence | discriminate].
  - simpl. split; [tauto|]. split; [congruence|]. split; [congruence | discriminate].
  - destruct (send_route_answer_kind (req_body req)) as [? ? -> _ | ? -> | ? ? -> _];
      simpl.
    + split; [tauto|]. split; [congruence|]. split; [congruence | discriminate].
    + split; [tauto|]. split; [now eexists _, _|].
      split; [congruence | discriminate].
    + split; [tauto|]. split; [now eexists _, _|].
      split; [reflexivity | discriminate].
Qed.

End EveryResponse.

(** ** Routes and sends *)

Section Routes.

Variable HTTP_AUTH_TOKEN : string.
Variable JSON_parse : string -> outcome json.
Variable pathname : string -> option string.
Variable array_toString : list json -> string.
Variable new_Location : value -> value -> value -> value -> outcome content.
Variable sendMessage : value -> content -> outcome Receipt.
Variable client_info : bool.
Variable now : string.

Let handler : IncomingMessage -> Handled :=
  Gateway.handler HTTP_AUTH_TOKEN JSON_parse pathname array_toString
    new_Location sendMessage client_info now.

(** An [OPTIONS] request is answered 200 with an empty body and the CORS
    headers on every path, with or without a token: the method is looked at
    before the [Authorization] header.  Nothing else is done for it. *)
Theorem preflight_needs_no_token (req : IncomingMessage) :
  req_method req = "OPTIONS" ->
  handler req
  = {| response := {| statusCode := 200; res_headers := cors; res_body := None |};
       sent := [];
       logged := [] |}.
Proof. unfold handler, Gateway.handler. now intros ->. Qed.

(** For a request that carries the token: [GET /status] is answered 200 with
    the state of the session, [connected] once [client.info] is set and
    [connecting] before; every pair of method and path other than
    [POST /send] and [GET /status] is answered 404, [GET /send] and
    [POST /status] among them.  The session is not called. *)
Theorem routes_other_than_send (req : IncomingMessage) :
  req_method req <> "OPTIONS" ->
  req_authorization req = Some ("Bearer " ++ HTTP_AUTH_TOKEN) ->
  ~ (req_method req = "POST" /\ pathname (req_url req) = Some "/send") ->
  (req_method req = "GET" /\ pathname (req_url req) = Some "/status" ->
   handler req
   = reply 200
       [("status", JString "running");
        ("whatsapp", JString (if client_info then "connected" else "connecting"));
        ("timestamp", JString now)])
  /\ (~ (req_method req = "GET" /\ pathname (req_url req) = Some "/status") ->
      handler req = reply 404 [("error", JString "Not found")]).
Proof.
  intros Hm Ha Hsend. unfold handler, Gateway.handler.
  apply String.eqb_neq in Hm. rewrite Hm, Ha, authorized_bearer.
  assert (Hpost :
    String.eqb (req_method req) "POST"
    && match pathname (req_url req) with
       | Some p => String.eqb p "/send"
       | None => false
       end = false).
  { destruct (String.eqb_spec (req_method req) "POST") as [E|_]; [|reflexivity].
    destruct (pathname (req_url req)) as [p|]; [|reflexivity].
    destruct (String.eqb_spec p "/send") as [->|_]; [|reflexivity].
    now contradiction Hsend. }
  rewrite Hpost. split.
  - intros [-> ->]. reflexivity.
  - intros Hstatus.
    destruct (String.eqb_spec (req_method req) "GET") as [E|_]; [|reflexivity].
    destruct (pathname (req_url req)) as [p|]; [|reflexivity].
    destruct (String.eqb_spec p "/status") as [->|_]; [|reflexivity].
    now contradiction Hstatus.
Qed.

(** The frame of the theorems on sends: an authorized [POST /send] whose
    body parses to [data]. *)
Definition send_request (req : IncomingMessage) (data : json) : Prop :=
  req_method req = "POST"
  /\ pathname (req_url req) = Some "/send"
  /\ req_authorization req = Some ("Bearer " ++ HTTP_AUTH_TOKEN)
  /\ JSON_parse (req_body req) = Resolves data.

Lemma send_request_route (req : IncomingMessage) (data : json) :
  send_request req data ->
  handler req
  = Gateway.send_route JSON_parse array_toString new_Location sendMessage
      (req_body req).
Proof.
  intros (Hm & Hp & Ha & _).
  now apply handler_send_route.
Qed.

(** A text message (the type [text], or no type) with a non-empty string
    [to] and a truthy [message] is given to the session once, with the
    normalized recipient.  When the session sends it the answer is 200 with
    the id and the time of the sent message; when the session fails the
    answer is 500 with the message of its error as [details], the error is
    written to the console, and the gateway does not try again. *)
Theorem text_send_outcome (req : IncomingMessage) (o : object) (s : string) :
  send_request req (JObject o) ->
  get o "to" = Some (JString s) -> s <> "" ->
  truthy (get o "message") = true ->
  get o "type" = None \/ get o "type" = Some (JString "text") ->
  let phoneNumber :=
    Some (JString (if JsString.includes s "@c.us" || JsString.includes s "@g.us"
                   then s else s ++ "@c.us")) in
  let call := (phoneNumber, Text (get o "message")) in
  match sendMessage phoneNumber (Text (get o "message")) with
  | Resolves result =>
      handler req
      = {| response :=
             json_response 200
               [("success", JBool true);
                ("messageId", JString (receipt_id_serialized result));
                ("timestamp", JNumber (receipt_timestamp result))];
           sent := [call];
           logged := [] |}
  | Rejects error =>
      handler req
      = {| response :=
             json_response 500
               [("error", JString "Failed to send message");
                ("details", JString (err_message error))];
           sent := [call];
           logged := [error] |}
  end.
Proof.
  intros Hreq Hto Hs Hmsg Htype. cbv zeta.
  rewrite (send_request_route _ _ Hreq). destruct Hreq as (_ & _ & _ & Hparse).
  unfold Gateway.send_route. rewrite Hparse. cbn [prop].
  rewrite Hto, Hmsg, (truthy_string s Hs), phoneNumber_of_string.
  cbn [negb orb].
  assert (Htext :
    is_string match get o "type" with
              | Some j => Some j
              | None => Some (JString "text")
              end "text" = true)
    by (destruct Htype as [-> | ->]; reflexivity).
  rewrite Htext. unfold Gateway.send.
  now destruct (sendMessage _ _).
Qed.

(** A request with a type other than [text] and [location] ([image], [Text],
    a number, [null]) is answered 400 with [Unsupported message type] once
    the required fields are there; the session is not called. *)
Theorem unsupported_type_is_refused (req : IncomingMessage) (o : object)
    (s : string) (type : json) :
  send_request req (JObject o) ->
  get o "to" = Some (JString s) -> s <> "" ->
  truthy (get o "message") = true ->
  get o "type" = Some type ->
  type <> JString "text" -> type <> JString "location" ->
  handler req = reply 400 [("error", JString "Unsupported message type")].
Proof.
  intros Hreq Hto Hs Hmsg Htype Hnt Hnl.
  rewrite (send_request_route _ _ Hreq). destruct Hreq as (_ & _ & _ & Hparse).
  unfold Gateway.send_route. rewrite Hparse. cbn [prop].
  rewrite Hto, Hmsg, (truthy_string s Hs), phoneNumber_of_string, Htype.
  cbn [negb orb].
  replace (is_string (Some type) "text") with false.
  - replace (is_string (Some type) "location") with false; [reflexivity|].
    symmetry. apply not_true_is_false. intros H.
    apply is_string_eq in H. congruence.
  - symmetry. apply not_true_is_false. intros H.
    apply is_string_eq in H. congruence.
Qed.

(** A [to] that is a number, [true] or an object is truthy and passes the
    test of the required fields, but has no [includes] method: the handler
    throws, and the request is answered 500, not 400.  The session is not
    called. *)
Theorem recipient_that_is_no_string_gets_500 (req : IncomingMessage) (o : object)
    (to : json) :
  send_request req (JObject o) ->
  get o "to" = Some to ->
  (exists x, to = JNumber x /\ number_truthy x = true)
  \/ to = JBool true
  \/ (exists props, to = JObject props) ->
  truthy (get o "message") = true ->
  handler req
  = {| response :=
         json_response 500
           [("error", JString "Failed to send message");
            ("details", JString "phoneNumber.includes is not a function")];
       sent := [];
       logged := [TypeError "phoneNumber.includes is not a function"] |}.
Proof.
  intros Hreq Hto Hkind Hmsg.
  rewrite (send_request_route _ _ Hreq). destruct Hreq as (_ & _ & _ & Hparse).
  unfold Gateway.send_route. rewrite Hparse. cbn [prop]. rewrite Hto, Hmsg.
  destruct Hkind as [(x & -> & Hx) | [-> | (props & ->)]]; simpl;
    rewrite ?Hx; reflexivity.
Qed.

(** A body that is JSON but no object: [null] makes the handler throw and is
    answered 500; a number, a string, a boolean or an array has no [to] and
    is answered 400 with [Missing required fields: to, message]. *)
Theorem body_that_is_no_object (req : IncomingMessage) (data : json) :
  send_request req data ->
  (forall props, data <> JObject props) ->
  (data = JNull ->
   handler req
   = {| response :=
          json_response 500
            [("error", JString "Failed to send message");
             ("details",
              JString "Cannot destructure property 'to' of 'data' as it is null.")];
        sent := [];
        logged :=
          [TypeError "Cannot destructure property 'to' of 'data' as it is null."] |})
  /\ (data <> JNull ->
      handler req
      = reply 400 [("error", JString "Missing required fields: to, message")]).
Proof.
  intros Hreq Hobj.
  rewrite (send_request_route _ _ Hreq). destruct Hreq as (_ & _ & _ & Hparse).
  unfold Gateway.send_route. rewrite Hparse.
  destruct data; split; intros H; try discriminate H; try reflexivity;
    try (now contradiction H).
  now contradiction (Hobj props).
Qed.

(** A location with a non-empty string [to], a truthy [message], a truthy
    [latitude] and a truthy [longitude]: the location is made of the
    latitude, the longitude, the name and the address of the body, and given
    to the session once with the normalized recipient; the [message], though
    required, is not sent.  When making the location throws, the answer is
    500 and the session is not called. *)
Theorem location_send_outcome (req : IncomingMessage) (o : object) (s : string) :
  send_request req (JObject o) ->
  get o "to" = Some (JString s) -> s <> "" ->
  truthy (get o "message") = true ->
  get o "type" = Some (JString "location") ->
  truthy (get o "latitude") = true ->
  truthy (get o "longitude") = true ->
  let phoneNumber :=
    Some (JString (if JsString.includes s "@c.us" || JsString.includes s "@g.us"
                   then s else s ++ "@c.us")) in
  match
    new_Location (get o "latitude") (get o "longitude") (get o "name")
      (get o "address")
  with
  | Resolves location =>
      sent (handler req) = [(phoneNumber, location)]
      /\ (forall result, sendMessage phoneNumber location = Resolves result ->
            statusCode (response (handler req)) = 200%Z)
      /\ (forall error, sendMessage phoneNumber location = Rejects error ->
            statusCode (response (handler req)) = 500%Z)
  | Rejects error =>
      sent (handler req) = []
      /\ statusCode (response (handler req)) = 500%Z
      /\ logged (handler req) = [error]
  end.
Proof.
  intros Hreq Hto Hs Hmsg Htype Hlat Hlon. cbv zeta.
  rewrite (send_request_route _ _ Hreq). destruct Hreq as (_ & _ & _ & Hparse).
  unfold Gateway.send_route. rewrite Hparse. cbn [prop].
  rewrite Hto, Hmsg, (truthy_string s Hs), phoneNumber_of_string, Htype,
    Hlat, Hlon.
  cbn [negb orb is_string].
  replace (String.eqb "location" "text") with false by reflexivity.
  replace (String.eqb "location" "location") with true by reflexivity.
  destruct (new_Location _ _ _ _) as [location|error]; [|repeat split].
  unfold Gateway.send.
  destruct (sendMessage _ location) as [result|error]; repeat split;
    intros; discriminate || reflexivity.
Qed.

End Routes.

(** ** Routes and sends on the sample requests *)

Lemma preflight_witness :
  sample_handler
    {| req_method := "OPTIONS";
       req_authorization := None;
       req_url := "/send";
       req_body := "" |}
  = {| response := {| statusCode := 200; res_headers := cors; res_body := None |};
       sent := [];
       logged := [] |}.
Proof.
  apply (preflight_needs_no_token "s3cret" sample_parse sample_pathname
           sample_array_toString sample_Location sample_session true
           "2023-09-11T18:23:20.000Z").
  reflexivity.
Defined.

(** [GET /send] is no route. *)
Lemma routes_witness :
  sample_handler
    {| req_method := "GET";
       req_authorization := Some "Bearer s3cret";
       req_url := "/send";
       req_body := "" |}
  = reply 404 [("error", JString "Not found")].
Proof.
  apply (proj2
           (routes_other_than_send "s3cret" sample_parse sample_pathname
              sample_array_toString sample_Location sample_session true
              "2023-09-11T18:23:20.000Z"
              {| req_method := "GET";
                 req_authorization := Some "Bearer s3cret";
                 req_url := "/send";
                 req_body := "" |}
              ltac:(discriminate) eq_refl
              ltac:(intros [H _]; discriminate H))).
  intros [_ H]. discriminate H.
Defined.

Example status_with_query :
  sample_handler
    {| req_method := "GET";
       req_authorization := Some "Bearer s3cret";
       req_url := "/status?verbose=1";
       req_body := "" |}
  = reply 200
      [("status", JString "running");
       ("whatsapp", JString "connected");
       ("timestamp", JString "2023-09-11T18:23:20.000Z")].
Proof. reflexivity. Qed.

(** The same text message to a session that sends it and to one that is
    closed. *)
Lemma text_send_witness :
  sample_handler (post_send (json_text "{'to':'15551234567','message':'hello'}"))
  = {| response :=
         json_response 200
           [("success", JBool true);
            ("messageId", JString "true_15551234567@c.us_3EB0A1");
            ("timestamp", JNumber 1694456600%float)];
       sent := [(Some (JString "15551234567@c.us"), Text (Some (JString "hello")))];
       logged := [] |}
  /\ more_handler closed_session
       (post_send (json_text "{'to':'15551234567','message':'hello'}"))
     = {| response :=
            json_response 500
              [("error", JString "Failed to send message");
               ("details", JString "Session closed")];
          sent :=
            [(Some (JString "15551234567@c.us"), Text (Some (JString "hello")))];
          logged := [{| err_name := "Error"; err_message := "Session closed" |}] |}.
Proof.
  split.
  - apply (text_send_outcome "s3cret" sample_parse sample_pathname
             sample_array_toString sample_Location sample_session true
             "2023-09-11T18:23:20.000Z"
             (post_send (json_text "{'to':'15551234567','message':'hello'}"))
             [("to", JString "15551234567"); ("message", JString "hello")]
             "15551234567").
    + repeat split.
    + reflexivity.
    + discriminate.
    + reflexivity.
    + left. reflexivity.
  - apply (text_send_outcome "s3cret" more_parse sample_pathname
             sample_array_toString sample_Location closed_session true
             "2023-09-11T18:23:20.000Z"
             (post_send (json_text "{'to':'15551234567','message':'hello'}"))
             [("to", JString "15551234567"); ("message", JString "hello")]
             "15551234567").
    + repeat split.
    + reflexivity.
    + discriminate.
    + reflexivity.
    + left. reflexivity.
Defined.

Lemma unsupported_type_witness :
  more_handler sample_session
    (post_send
       (json_text "{'to':'15551234567','message':'hello','type':'image'}"))
  = reply 400 [("error", JString "Unsupported message type")].
Proof.
  apply (unsupported_type_is_refused "s3cret" more_parse sample_pathname
           sample_array_toString sample_Location sample_session true
           "2023-09-11T18:23:20.000Z"
           (post_send
              (json_text "{'to':'15551234567','message':'hello','type':'image'}"))
           [("to", JString "15551234567"); ("message", JString "hello");
            ("type", JString "image")]
           "15551234567" (JString "image")).
  - repeat split.
  - reflexivity.
  - discriminate.
  - reflexivity.
  - reflexivity.
  - discriminate.
  - discriminate.
Defined.

(** The recipient written as a JSON number. *)
Lemma numeric_recipient_witness :
  more_handler sample_session
    (post_send (json_text "{'to':15551234567,'message':'hello'}"))
  = {| response :=
         json_response 500
           [("error", JString "Failed to send message");
            ("details", JString "phoneNumber.includes is not a function")];
       sent := [];
       logged := [TypeError "phoneNumber.includes is not a function"] |}.
Proof.
  apply (recipient_that_is_no_string_gets_500 "s3cret" more_parse
           sample_pathname sample_array_toString sample_Location sample_session
           true "2023-09-11T18:23:20.000Z"
           (post_send (json_text "{'to':15551234567,'message':'hello'}"))
           [("to", JNumber 15551234567%float); ("message", JString "hello")]
           (JNumber 15551234567%float)).
  - repeat split.
  - reflexivity.
  - left. eexists. split; reflexivity.
  - reflexivity.
Defined.

Lemma body_null_witness :
  more_handler sample_session (post_send "null")
  = {| response :=
         json_response 500
           [("error", JString "Failed to send message");
            ("details",
             JString "Cannot destructure property 'to' of 'data' as it is null.")];
       sent := [];
       logged :=
         [TypeError "Cannot destructure property 'to' of 'data' as it is null."] |}
  /\ more_handler sample_session (post_send "[]")
     = reply 400 [("error", JString "Missing required fields: to, message")].
Proof.
  split.
  - apply (proj1
             (body_that_is_no_object "s3cret" more_parse sample_pathname
                sample_array_toString sample_Location sample_session true
                "2023-09-11T18:23:20.000Z" (post_send "null") JNull
                ltac:(repeat split) ltac:(discriminate))).
    reflexivity.
  - apply (proj2
             (body_that_is_no_object "s3cret" more_parse sample_pathname
                sample_array_toString sample_Location sample_session true
                "2023-09-11T18:23:20.000Z" (post_send "[]") (JArray [])
                ltac:(repeat split) ltac:(discriminate))).
    discriminate.
Defined.

Lemma location_send_witness :
  sent
    (more_handler sample_session
       (post_send
          (json_text
             "{'to':'15551234567','message':'here','type':'location','latitude':37.5,'longitude':-122.25,'name':'Office'}")))
  = [(Some (JString "15551234567@c.us"),
      Location (Some (JNumber 37.5%float)) (Some (JNumber (-122.25)%float))
        (Some (JString "Office")) None)].
Proof.
  apply (proj1
           (location_send_outcome "s3cret" more_parse sample_pathname
              sample_array_toString sample_Location sample_session true
              "2023-09-11T18:23:20.000Z"
              (post_send
                 (json_text
                    "{'to':'15551234567','message':'here','type':'location','latitude':37.5,'longitude':-122.25,'name':'Office'}"))
              [("to", JString "15551234567"); ("message", JString "here");
               ("type", JString "location"); ("latitude", JNumber 37.5%float);
               ("longitude", JNumber (-122.25)%float);
               ("name", JString "Office")]
              "15551234567"
              ltac:(repeat split) eq_refl ltac:(discriminate) eq_refl eq_refl
              eq_refl eq_refl)).
Defined.

(** ** The payload and the metadata *)

Lemma get_absent {V : Type} (o : dict V) (k : string) :
  ~ In k (map fst o) -> get o k = None.
Proof.
  induction o as [|[k' v] o IH]; [reflexivity|]. simpl. intros H.
  destruct (String.eqb_spec k' k) as [->|_]; [tauto|].
  apply IH. tauto.
Qed.

(** A spread writes every property of the object spread last over the
    properties before it. *)
Lemma get_spread {V : Type} (extra : dict V) :
  NoDup (map fst extra) ->
  forall (o : dict V) (k : string),
    get (spread o extra) k
    = match get extra k with
      | Some v => Some v
      | None => get o k
      end.
Proof.
  unfold spread. induction extra as [|[k1 v1] rest IH]; intros Hnd o k.
  - reflexivity.
  - inversion Hnd as [|? ? Hnotin Hrest]; subst. simpl.
    rewrite (IH Hrest).
    destruct (String.eqb_spec k1 k) as [->|Hne].
    + rewrite (get_absent rest k Hnotin). apply get_set_same.
    + destruct (get rest k); [reflexivity|].
      apply get_set_other. congruence.
Qed.

(** In the payload every property of [additionalData] stands as the caller
    gave it, [sender], [message] and [timestamp] included: the function's own
    values of these three are kept only under the keys that [additionalData]
    does not have. *)
Theorem metadata_overrides_payload
    (sender message iso : string) (additionalData : object) :
  NoDup (map fst additionalData) ->
  forall k,
    get (payload_of sender message iso additionalData) k
    = match get additionalData k with
      | Some v => Some v
      | None =>
          get [("sender", JString sender);
               ("message", JString message);
               ("timestamp", JString iso)] k
      end.
Proof. intros Hnd k. unfold payload_of. now apply get_spread. Qed.

(** Metadata with a [sender] of its own. *)
Lemma metadata_overrides_witness :
  get (payload_of "15551234567@c.us" "hello" "2023-09-11T18:22:18.000Z"
         [("sender", JString "someone else"); ("priority", JBool true)])
      "sender"
  = Some (JString "someone else").
Proof.
  apply (metadata_overrides_payload "15551234567@c.us" "hello"
           "2023-09-11T18:22:18.000Z"
           [("sender", JString "someone else"); ("priority", JBool true)]).
  repeat constructor; simpl; intuition discriminate.
Defined.

(** ** The filter and the case of letters *)

Section FilterCase.

Variable toLowerCase : string -> string.
Variable apiConfig : ApiConfig.

(** The decision of the filter does not depend on the case of the letters of
    the message: a message and its lower-case form are treated alike, given
    that putting a string in lower case twice is the same as once. *)
Theorem filter_ignores_case_of_message
    (sender message : string) (additionalData : object) :
  (forall s, toLowerCase (toLowerCase s) = toLowerCase s) ->
  shouldForwardMessage toLowerCase apiConfig sender (toLowerCase message)
    additionalData
  = shouldForwardMessage toLowerCase apiConfig sender message additionalData.
Proof.
  intros Hidem. unfold shouldForwardMessage, keyword_matches.
  now rewrite Hidem.
Qed.

(** An empty string among the required keywords matches every message: the
    keyword rule then lets everything through, given that the lower-case
    form of the empty string is empty. *)
Theorem empty_keyword_matches_every_message
    (sender message : string) (additionalData : object) :
  toLowerCase "" = "" ->
  In "" (requiredKeywords (filters apiConfig)) ->
  passes toLowerCase apiConfig RequiredKeyword sender message additionalData
  /\ existsb (keyword_matches toLowerCase message)
       (requiredKeywords (filters apiConfig))
     = true.
Proof.
  intros Hempty Hin.
  assert (H : existsb (keyword_matches toLowerCase message)
                (requiredKeywords (filters apiConfig)) = true).
  { apply existsb_exists. exists "". split; [assumption|].
    unfold keyword_matches. rewrite Hempty.
    now destruct (toLowerCase message). }
  split; [|assumption].
  apply passesb_passes. unfold passesb. cbv zeta. rewrite H.
  now rewrite andb_false_r.
Qed.

End FilterCase.

Lemma lower_idempotent (a : ascii) : JsString.lower (JsString.lower a) = JsString.lower a.
Proof. destruct a as [[] [] [] [] [] [] [] []]; reflexivity. Qed.

Lemma toLowerCase_idempotent (s : string) :
  JsString.toLowerCase (JsString.toLowerCase s) = JsString.toLowerCase s.
Proof.
  induction s as [|a s IH]; [reflexivity|]. simpl.
  now rewrite lower_idempotent, IH.
Qed.

Lemma filter_case_witness :
  shouldForwardMessage JsString.toLowerCase sample_config "15551234567@c.us"
    (JsString.toLowerCase "Please HELP me")
    (additionalData_of sample_msg sample_chat)
  = shouldForwardMessage JsString.toLowerCase sample_config "15551234567@c.us"
      "Please HELP me" (additionalData_of sample_msg sample_chat).
Proof.
  apply filter_ignores_case_of_message. exact toLowerCase_idempotent.
Defined.

Lemma empty_keyword_witness :
  passes JsString.toLowerCase
    {| enabled := true;
       endpoint := "https://api.example.com/webhook";
       apiKey := "secret-key";
       headers := [];
       timeout := 10000;
       retryAttempts := 3;
       retryDelay := 1000;
       filters :=
         {| skipOwnMessages := false;
            skipGroupMessages := false;
            allowedSenders := [];
            requiredKeywords := ["urgent"; ""] |};
       logSuccess := false;
       logErrors := false;
       debug := false |}
    RequiredKeyword "15551234567@c.us" "good morning" []
  /\ existsb (keyword_matches JsString.toLowerCase "good morning")
       ["urgent"; ""]
     = true.
Proof.
  apply (empty_keyword_matches_every_message JsString.toLowerCase
           {| enabled := true;
              endpoint := "https://api.example.com/webhook";
              apiKey := "secret-key";
              headers := [];
              timeout := 10000;
              retryAttempts := 3;
              retryDelay := 1000;
              filters :=
                {| skipOwnMessages := false;
                   skipGroupMessages := false;
                   allowedSenders := [];
                   requiredKeywords := ["urgent"; ""] |};
              logSuccess := false;
              logErrors := false;
              debug := false |}
           "15551234567@c.us" "good morning" []).
  - reflexivity.
  - simpl. tauto.
Defined.
